(** * The combo-box dropdown ([ComboBoxDropdown]) of vaadin/web-components

    A shallow embedding of the [vaadin-combo-box-dropdown] element: the
    overlay controller ([_openedOrItemsChanged], [_openedChanged]), the width
    synchronisation ([_setOverlayWidth]), the relay of scroller events
    ([_forwardScrollerEvent]), the label resolver ([getItemLabel],
    [indexOfLabel]) and the focused-item pointer ([_getFocusedItem]).

    JavaScript values are modelled as plain data, the element as a record of
    its properties, and its methods as computations in a state-and-exception
    monad: a method either returns normally with the new element state or
    throws.

    The statements about the overlay are made for the connected dropdown
    ([reachable]) and, where they differ, for its whole life, detaching
    included ([attainable]).

    Beside the dropdown the file covers the combo-box test helpers
    [makeItems] and [getAllItems], the package clean-up script
    ([updatePackage]) and the height update of the text area
    ([_updateHeight]). *)

From Stdlib Require Import ZArith Bool Ascii String List Lia.
From stdpp Require Import base option list strings pretty gmap sorting.
Import ListNotations.
Open Scope Z_scope.
Set Warnings "-register-all".

(** ** JavaScript values *)

Module Js.

(** Plain-data JavaScript values. Numbers are the integers a double holds
    exactly and prints in plain decimal notation, that is, those of
    magnitude up to 2^53 (plus [NaN]); an object is the list of its own data
    properties. *)
Inductive Val : Type :=
| Undefined
| Null
| Bool (b : bool)
| Num (n : Z)
| NaN
| Str (s : string)
| Obj (fields : list (string * Val))
| Arr (elems : list Val).

(** What a JavaScript operation can throw. *)
Inductive Error : Type :=
| TypeError (msg : string).

Inductive Result (A : Type) : Type :=
| Ok (a : A)
| Throw (e : Error).
Arguments Ok {A} a.
Arguments Throw {A} e.

Definition is_ok {A} (r : Result A) : bool :=
  match r with Ok _ => true | Throw _ => false end.

(** ToBoolean: the test of [if (v)], [v && w], [v || w], [v ? a : b]. *)
Definition truthy (v : Val) : bool :=
  match v with
  | Undefined | Null | NaN => false
  | Bool b => b
  | Num n => negb (Z.eqb n 0)
  | Str s => negb (String.eqb s "")
  | Obj _ | Arr _ => true
  end.

(** [v === undefined || v === null] *)
Definition nullish (v : Val) : bool :=
  match v with
  | Undefined | Null => true
  | _ => false
  end.

(** Own-property lookup [o[k]] on the property list of an object: the first
    binding of [k]. *)
Fixpoint own (k : string) (fields : list (string * Val)) : option Val :=
  match fields with
  | [] => None
  | (k', v) :: rest => if String.eqb k k' then Some v else own k rest
  end.

Fixpoint join (sep : string) (parts : list string) : string :=
  match parts with
  | [] => ""
  | [p] => p
  | p :: rest => p +:+ sep +:+ join sep rest
  end.

(** The method call [v.toString()].

    - on [undefined] and [null] the property access throws;
    - booleans, numbers and strings use their prototype's method;
    - an object whose own data property [toString] shadows
      [Object.prototype.toString] has no callable [toString]: the call
      throws; any other object gives ["[object Object]"];
    - an array joins the coercions of its elements with a comma, where
      [undefined] and [null] elements give the empty string. *)
Fixpoint toString (v : Val) : Result string :=
  match v with
  | Undefined => Throw (TypeError "Cannot read properties of undefined")
  | Null => Throw (TypeError "Cannot read properties of null")
  | Bool true => Ok "true"
  | Bool false => Ok "false"
  | Num n => Ok (pretty n)
  | NaN => Ok "NaN"
  | Str s => Ok s
  | Obj fields =>
      match own "toString" fields with
      | Some _ => Throw (TypeError "toString is not a function")
      | None => Ok "[object Object]"
      end
  | Arr elems =>
      let fix parts (l : list Val) : Result (list string) :=
        match l with
        | [] => Ok []
        | e :: rest =>
            match (if nullish e then Ok "" else toString e) with
            | Throw err => Throw err
            | Ok p =>
                match parts rest with
                | Throw err => Throw err
                | Ok ps => Ok (p :: ps)
                end
            end
        end in
      match parts elems with
      | Throw err => Throw err
      | Ok ps => Ok (join "," ps)
      end
  end.

(** The lower-case form of an ASCII character. *)
Definition lower_ascii (c : ascii) : ascii :=
  let n := nat_of_ascii c in
  if (Nat.leb 65 n && Nat.leb n 90)%bool then ascii_of_nat (n + 32) else c.

(** [String.prototype.toLowerCase] on a string of ASCII characters: the
    letters A to Z are folded, every other character is kept. It is the
    case folding of the examples; the label resolver takes the engine's
    [toLowerCase] as a parameter. *)
Fixpoint toLowerCase_ascii (s : string) : string :=
  match s with
  | EmptyString => EmptyString
  | String c rest => String (lower_ascii c) (toLowerCase_ascii rest)
  end.

(** Array indexing [a[i]] with an integral index: [undefined] off the
    ends. *)
Definition index (a : list Val) (i : Z) : Val :=
  if Z.ltb i 0 then Undefined
  else match a !! Z.to_nat i with
       | Some v => v
       | None => Undefined
       end.

End Js.


(** ** The internal scroller ([vaadin-combo-box-scroller])

    The dropdown creates the scroller in [ready] and talks to it through
    [setProperties], [style.maxHeight], [addEventListener] and
    [scrollIntoView]; the test helper [scrollToIndex] reaches its virtualizer
    directly. *)

Module Scroller.
Import Js.

(** A renderer callback, known by its identity only. *)
Definition Renderer : Type := nat.

(** The listeners the dropdown registers on the scroller. *)
Inductive Listener : Type :=
| ForwardScrollerEvent.   (* (e) => this._forwardScrollerEvent(e) *)

Record t : Type := {
  items : option (list Val);
  opened : bool;
  loading : bool;
  selectedItem : Val;
  itemIdPath : option string;
  focusedIndex : Z;
  renderer : option Renderer;
  theme : option string;
  maxHeight : string;                      (* style.maxHeight *)
  listeners : list (string * Listener);    (* in registration order *)
  scrollTarget : option Z                  (* index the virtualizer last scrolled to *)
}.

(** [document.createElement(scrollerTag)]: nothing set yet. *)
Definition create : t :=
  {| items := None; opened := false; loading := false; selectedItem := Undefined;
     itemIdPath := None; focusedIndex := -1; renderer := None; theme := None;
     maxHeight := ""; listeners := []; scrollTarget := None |}.

(** [scroller.setProperties({ items, opened, loading, selectedItem,
    itemIdPath, focusedIndex, renderer, theme })] *)
Definition setProperties (items' : option (list Val)) (opened' loading' : bool)
    (selectedItem' : Val) (itemIdPath' : option string) (focusedIndex' : Z)
    (renderer' : option Renderer) (theme' : option string) (sc : t) : t :=
  {| items := items'; opened := opened'; loading := loading';
     selectedItem := selectedItem'; itemIdPath := itemIdPath';
     focusedIndex := focusedIndex'; renderer := renderer'; theme := theme';
     maxHeight := maxHeight sc; listeners := listeners sc;
     scrollTarget := scrollTarget sc |}.

(** [scroller.style.maxHeight = h] *)
Definition set_maxHeight (h : string) (sc : t) : t :=
  {| items := items sc; opened := opened sc; loading := loading sc;
     selectedItem := selectedItem sc; itemIdPath := itemIdPath sc;
     focusedIndex := focusedIndex sc; renderer := renderer sc; theme := theme sc;
     maxHeight := h; listeners := listeners sc; scrollTarget := scrollTarget sc |}.

(** [scroller.addEventListener(type, listener)] *)
Definition addEventListener (type : string) (l : Listener) (sc : t) : t :=
  {| items := items sc; opened := opened sc; loading := loading sc;
     selectedItem := selectedItem sc; itemIdPath := itemIdPath sc;
     focusedIndex := focusedIndex sc; renderer := renderer sc; theme := theme sc;
     maxHeight := maxHeight sc; listeners := listeners sc ++ [(type, l)];
     scrollTarget := scrollTarget sc |}.

Definition set_scrollTarget (target : option Z) (sc : t) : t :=
  {| items := items sc; opened := opened sc; loading := loading sc;
     selectedItem := selectedItem sc; itemIdPath := itemIdPath sc;
     focusedIndex := focusedIndex sc; renderer := renderer sc; theme := theme sc;
     maxHeight := maxHeight sc; listeners := listeners sc; scrollTarget := target |}.

(** The size N of the scroller's item collection. *)
Definition size (sc : t) : Z :=
  match items sc with
  | Some l => Z.of_nat (length l)
  | None => 0
  end.

(** Modelled from the spec: the virtualizer's index clamping, which lives in
    the scroller and virtualizer sources that are not under src/. An index
    outside [0, N) is clamped to the nearest valid index; with no item there
    is no valid index and nothing to scroll to. *)
Definition clamp (N i : Z) : option Z :=
  if N <=? 0 then None else Some (Z.max 0 (Z.min i (N - 1))).

(** Modelled from the spec: [__virtualizer.scrollToIndex(index)], not under
    src/. It scrolls to the clamped index and fails silently: it never
    throws. *)
Definition scrollToIndex (i : Z) (sc : t) : Result t :=
  match clamp (size sc) i with
  | Some j => Ok (set_scrollTarget (Some j) sc)
  | None => Ok sc
  end.

(** Modelled from the spec: the scroller's [scrollIntoView(index)], not under
    src/; it hands the index to the virtualizer. *)
Definition scrollIntoView (i : Z) (sc : t) : Result t := scrollToIndex i sc.

End Scroller.

(** ** The dropdown element *)

Module Dropdown.
Import Js.

Definition Renderer : Type := Scroller.Renderer.

(** The anchor element the overlay is aligned by. *)
Record PositionTarget : Type := { clientWidth : Z }.

Record Event : Type := {
  type : string;
  detail : Val;
  bubbles : bool;
  composed : bool
}.

(** [new CustomEvent(type, { detail, bubbles, composed })]; a member left out
    of the init dictionary takes its default ([null], [false], [false]).
    The events of the model are custom events: their [detail] is never
    [undefined]. *)
Definition CustomEvent (ty : string) (d : option Val) (b c : option bool) : Event :=
  {| type := ty; detail := default Null d;
     bubbles := default false b; composed := default false c |}.

(** The element: its declared properties (in the order of
    [static get properties]), its private fields, the custom properties the
    dropdown sets in the inline style of [this.$.overlay] and the number of
    [_updatePosition] calls the overlay received (what the overlay itself
    writes to its style in [_updatePosition] is not tracked), the computed
    style of the host ([getComputedStyle(this)]), and the events dispatched
    on the element so far, oldest first. Boolean properties that
    are still [undefined] are represented by [false]. *)
Record State : Type := {
  touchDevice : bool;
  opened : bool;
  positionTarget : option PositionTarget;
  renderer : option Renderer;
  loading : bool;
  theme : option string;
  _selectedItem : Val;
  _items : option (list Val);
  _focusedIndex : Z;
  focusedItem : Val;
  _itemLabelPath : string;
  _itemValuePath : string;
  _scroller : option Scroller.t;
  _itemIdPath : option string;
  _overlayOpened : bool;
  __hostTagName : option string;
  __emptyItems : bool;
  overlayStyle : gmap string string;
  overlayPositionUpdates : nat;
  hostStyle : gmap string string;
  dispatched : list Event
}.

Definition upd_opened (v : bool) (s : State) : State :=
  Build_State (touchDevice s) v (positionTarget s) (renderer s) (loading s)
    (theme s) (_selectedItem s) (_items s) (_focusedIndex s) (focusedItem s)
    (_itemLabelPath s) (_itemValuePath s) (_scroller s) (_itemIdPath s)
    (_overlayOpened s) (__hostTagName s) (__emptyItems s) (overlayStyle s)
    (overlayPositionUpdates s) (hostStyle s) (dispatched s).

Definition upd_positionTarget (v : option PositionTarget) (s : State) : State :=
  Build_State (touchDevice s) (opened s) v (renderer s) (loading s) (theme
    s) (_selectedItem s) (_items s) (_focusedIndex s) (focusedItem s)
    (_itemLabelPath s) (_itemValuePath s) (_scroller s) (_itemIdPath s)
    (_overlayOpened s) (__hostTagName s) (__emptyItems s) (overlayStyle s)
    (overlayPositionUpdates s) (hostStyle s) (dispatched s).

Definition upd_renderer (v : option Renderer) (s : State) : State :=
  Build_State (touchDevice s) (opened s) (positionTarget s) v (loading s)
    (theme s) (_selectedItem s) (_items s) (_focusedIndex s) (focusedItem s)
    (_itemLabelPath s) (_itemValuePath s) (_scroller s) (_itemIdPath s)
    (_overlayOpened s) (__hostTagName s) (__emptyItems s) (overlayStyle s)
    (overlayPositionUpdates s) (hostStyle s) (dispatched s).

Definition upd_loading (v : bool) (s : State) : State :=
  Build_State (touchDevice s) (opened s) (positionTarget s) (renderer s) v
    (theme s) (_selectedItem s) (_items s) (_focusedIndex s) (focusedItem s)
    (_itemLabelPath s) (_itemValuePath s) (_scroller s) (_itemIdPath s)
    (_overlayOpened s) (__hostTagName s) (__emptyItems s) (overlayStyle s)
    (overlayPositionUpdates s) (hostStyle s) (dispatched s).

Definition upd_theme (v : option string) (s : State) : State :=
  Build_State (touchDevice s) (opened s) (positionTarget s) (renderer s)
    (loading s) v (_selectedItem s) (_items s) (_focusedIndex s)
    (focusedItem s) (_itemLabelPath s) (_itemValuePath s) (_scroller s)
    (_itemIdPath s) (_overlayOpened s) (__hostTagName s) (__emptyItems s)
    (overlayStyle s) (overlayPositionUpdates s) (hostStyle s) (dispatched s).

Definition upd__selectedItem (v : Val) (s : State) : State :=
  Build_State (touchDevice s) (opened s) (positionTarget s) (renderer s)
    (loading s) (theme s) v (_items s) (_focusedIndex s) (focusedItem s)
    (_itemLabelPath s) (_itemValuePath s) (_scroller s) (_itemIdPath s)
    (_overlayOpened s) (__hostTagName s) (__emptyItems s) (overlayStyle s)
    (overlayPositionUpdates s) (hostStyle s) (dispatched s).

Definition upd__items (v : option (list Val)) (s : State) : State :=
  Build_State (touchDevice s) (opened s) (positionTarget s) (renderer s)
    (loading s) (theme s) (_selectedItem s) v (_focusedIndex s) (focusedItem
    s) (_itemLabelPath s) (_itemValuePath s) (_scroller s) (_itemIdPath s)
    (_overlayOpened s) (__hostTagName s) (__emptyItems s) (overlayStyle s)
    (overlayPositionUpdates s) (hostStyle s) (dispatched s).

Definition upd__focusedIndex (v : Z) (s : State) : State :=
  Build_State (touchDevice s) (opened s) (positionTarget s) (renderer s)
    (loading s) (theme s) (_selectedItem s) (_items s) v (focusedItem s)
    (_itemLabelPath s) (_itemValuePath s) (_scroller s) (_itemIdPath s)
    (_overlayOpened s) (__hostTagName s) (__emptyItems s) (overlayStyle s)
    (overlayPositionUpdates s) (hostStyle s) (dispatched s).

Definition upd_focusedItem (v : Val) (s : State) : State :=
  Build_State (touchDevice s) (opened s) (positionTarget s) (renderer s)
    (loading s) (theme s) (_selectedItem s) (_items s) (_focusedIndex s) v
    (_itemLabelPath s) (_itemValuePath s) (_scroller s) (_itemIdPath s)
    (_overlayOpened s) (__hostTagName s) (__emptyItems s) (overlayStyle s)
    (overlayPositionUpdates s) (hostStyle s) (dispatched s).

Definition upd__itemLabelPath (v : string) (s : State) : State :=
  Build_State (touchDevice s) (opened s) (positionTarget s) (renderer s)
    (loading s) (theme s) (_selectedItem s) (_items s) (_focusedIndex s)
    (focusedItem s) v (_itemValuePath s) (_scroller s) (_itemIdPath s)
    (_overlayOpened s) (__hostTagName s) (__emptyItems s) (overlayStyle s)
    (overlayPositionUpdates s) (hostStyle s) (dispatched s).

Definition upd__scroller (v : option Scroller.t) (s : State) : State :=
  Build_State (touchDevice s) (opened s) (positionTarget s) (renderer s)
    (loading s) (theme s) (_selectedItem s) (_items s) (_focusedIndex s)
    (focusedItem s) (_itemLabelPath s) (_itemValuePath s) v (_itemIdPath s)
    (_overlayOpened s) (__hostTagName s) (__emptyItems s) (overlayStyle s)
    (overlayPositionUpdates s) (hostStyle s) (dispatched s).

Definition upd__itemIdPath (v : option string) (s : State) : State :=
  Build_State (touchDevice s) (opened s) (positionTarget s) (renderer s)
    (loading s) (theme s) (_selectedItem s) (_items s) (_focusedIndex s)
    (focusedItem s) (_itemLabelPath s) (_itemValuePath s) (_scroller s) v
    (_overlayOpened s) (__hostTagName s) (__emptyItems s) (overlayStyle s)
    (overlayPositionUpdates s) (hostStyle s) (dispatched s).

Definition upd__overlayOpened (v : bool) (s : State) : State :=
  Build_State (touchDevice s) (opened s) (positionTarget s) (renderer s)
    (loading s) (theme s) (_selectedItem s) (_items s) (_focusedIndex s)
    (focusedItem s) (_itemLabelPath s) (_itemValuePath s) (_scroller s)
    (_itemIdPath s) v (__hostTagName s) (__emptyItems s) (overlayStyle s)
    (overlayPositionUpdates s) (hostStyle s) (dispatched s).

Definition upd___hostTagName (v : option string) (s : State) : State :=
  Build_State (touchDevice s) (opened s) (positionTarget s) (renderer s)
    (loading s) (theme s) (_selectedItem s) (_items s) (_focusedIndex s)
    (focusedItem s) (_itemLabelPath s) (_itemValuePath s) (_scroller s)
    (_itemIdPath s) (_overlayOpened s) v (__emptyItems s) (overlayStyle s)
    (overlayPositionUpdates s) (hostStyle s) (dispatched s).

Definition upd___emptyItems (v : bool) (s : State) : State :=
  Build_State (touchDevice s) (opened s) (positionTarget s) (renderer s)
    (loading s) (theme s) (_selectedItem s) (_items s) (_focusedIndex s)
    (focusedItem s) (_itemLabelPath s) (_itemValuePath s) (_scroller s)
    (_itemIdPath s) (_overlayOpened s) (__hostTagName s) v (overlayStyle s)
    (overlayPositionUpdates s) (hostStyle s) (dispatched s).

Definition upd_overlayStyle (v : gmap string string) (s : State) : State :=
  Build_State (touchDevice s) (opened s) (positionTarget s) (renderer s)
    (loading s) (theme s) (_selectedItem s) (_items s) (_focusedIndex s)
    (focusedItem s) (_itemLabelPath s) (_itemValuePath s) (_scroller s)
    (_itemIdPath s) (_overlayOpened s) (__hostTagName s) (__emptyItems s) v
    (overlayPositionUpdates s) (hostStyle s) (dispatched s).

Definition upd_overlayPositionUpdates (v : nat) (s : State) : State :=
  Build_State (touchDevice s) (opened s) (positionTarget s) (renderer s)
    (loading s) (theme s) (_selectedItem s) (_items s) (_focusedIndex s)
    (focusedItem s) (_itemLabelPath s) (_itemValuePath s) (_scroller s)
    (_itemIdPath s) (_overlayOpened s) (__hostTagName s) (__emptyItems s)
    (overlayStyle s) v (hostStyle s) (dispatched s).

Definition upd_hostStyle (v : gmap string string) (s : State) : State :=
  Build_State (touchDevice s) (opened s) (positionTarget s) (renderer s)
    (loading s) (theme s) (_selectedItem s) (_items s) (_focusedIndex s)
    (focusedItem s) (_itemLabelPath s) (_itemValuePath s) (_scroller s)
    (_itemIdPath s) (_overlayOpened s) (__hostTagName s) (__emptyItems s)
    (overlayStyle s) (overlayPositionUpdates s) v (dispatched s).

Definition upd_dispatched (v : list Event) (s : State) : State :=
  Build_State (touchDevice s) (opened s) (positionTarget s) (renderer s)
    (loading s) (theme s) (_selectedItem s) (_items s) (_focusedIndex s)
    (focusedItem s) (_itemLabelPath s) (_itemValuePath s) (_scroller s)
    (_itemIdPath s) (_overlayOpened s) (__hostTagName s) (__emptyItems s)
    (overlayStyle s) (overlayPositionUpdates s) (hostStyle s) v.

(** *** Methods as computations

    A method runs on the element state and either returns a value with the
    new state or throws. *)

Definition M (A : Type) : Type := State -> Result (A * State).

Definition ret {A} (a : A) : M A := fun s => Ok (a, s).

Definition bind {A B} (m : M A) (k : A -> M B) : M B :=
  fun s => match m s with
           | Ok (a, s') => k a s'
           | Throw e => Throw e
           end.

Definition throw {A} (e : Error) : M A := fun _ => Throw e.

Definition read {A} (f : State -> A) : M A := fun s => Ok (f s, s).

Definition modify (f : State -> State) : M unit := fun s => Ok (tt, f s).

Definition lift {A} (r : Result A) : M A :=
  fun s => match r with
           | Ok a => Ok (a, s)
           | Throw e => Throw e
           end.

Notation "'let*' x ':=' m 'in' k" := (bind m (fun x => k))
  (at level 10, x name, m at level 100, k at level 200).
Notation "m ;; k" := (bind m (fun _ => k))
  (at level 100, k at level 200, right associativity).

(** The state a computation ends in, when it returns. *)
Definition exec {A} (m : M A) (s : State) : Result State :=
  match m s with
  | Ok (_, s') => Ok s'
  | Throw e => Throw e
  end.

(** [static get is()] *)
Definition is_ : string := "vaadin-combo-box-dropdown".

(** [s.replace(pat, rep)] with a string pattern: the first occurrence. *)
Fixpoint replace (pat rep s : string) : string :=
  match s with
  | EmptyString => if String.eqb pat "" then rep else ""
  | String c r =>
      if String.prefix pat s
      then rep +:+ String.substring (String.length pat)
                     (String.length s - String.length pat)%nat s
      else String c (replace pat rep r)
  end.

(** [`${this.__hostTagName}`]: an unset field prints as ["undefined"]. *)
Definition hostTagName (s : State) : string :=
  match __hostTagName s with
  | Some tag => tag
  | None => "undefined"
  end.

(** [style.getPropertyValue(name)]: the empty string when not set. *)
Definition getPropertyValue (style : gmap string string) (name : string) : string :=
  default "" (style !! name).

(** [this.dispatchEvent(e)] *)
Definition dispatchEvent (e : Event) : M unit :=
  modify (fun s => upd_dispatched (dispatched s ++ [e]) s).

Definition _fireTouchAction (sourceEvent : Val) : M unit :=
  dispatchEvent (CustomEvent "vaadin-overlay-touch-action"
                   (Some (Obj [("sourceEvent", sourceEvent)])) None None).

Definition _forwardScrollerEvent (event : Event) : M unit :=
  dispatchEvent (CustomEvent (type event) (Some (detail event)) None None).

Definition _setOverlayWidth : M unit :=
  let* target := read positionTarget in
  match target with
  | None => ret tt
  | Some target =>
      let inputWidth := pretty (clientWidth target) +:+ "px" in
      let* tag := read hostTagName in
      let propPrefix := tag +:+ "-overlay" in
      let* customWidth :=
        read (fun s => getPropertyValue (hostStyle s) ("--" +:+ propPrefix +:+ "-width")) in
      modify (fun s => upd_overlayStyle
                (<["--_" +:+ propPrefix +:+ "-default-width" := inputWidth]> (overlayStyle s)) s) ;;
      (if String.eqb customWidth ""
       then modify (fun s => upd_overlayStyle
                      (delete ("--" +:+ propPrefix +:+ "-width") (overlayStyle s)) s)
       else modify (fun s => upd_overlayStyle
                      (<["--" +:+ propPrefix +:+ "-width" := customWidth]> (overlayStyle s)) s)) ;;
      modify (fun s => upd_overlayPositionUpdates (S (overlayPositionUpdates s)) s)
  end.

Definition _openedChanged (opened wasOpened : bool) : M unit :=
  if opened then
    _setOverlayWidth ;;
    let* scroller := read _scroller in
    match scroller with
    | None => throw (TypeError "Cannot read properties of undefined (reading 'style')")
    | Some scroller =>
        let* tag := read hostTagName in
        let* value :=
          read (fun s => getPropertyValue (hostStyle s) ("--" +:+ tag +:+ "-overlay-max-height")) in
        modify (upd__scroller
                  (Some (Scroller.set_maxHeight
                           (if String.eqb value "" then "65vh" else value) scroller))) ;;
        dispatchEvent (CustomEvent "vaadin-combo-box-dropdown-opened" None (Some true) (Some true))
    end
  else
    let* emptyItems := read __emptyItems in
    if wasOpened && negb emptyItems then
      dispatchEvent (CustomEvent "vaadin-combo-box-dropdown-closed" None (Some true) (Some true))
    else ret tt.

(** Assignment to the property [_overlayOpened]: when the value changes, its
    observer [_openedChanged] runs before the assignment returns. *)
Definition set__overlayOpened (v : bool) : M unit :=
  let* old := read _overlayOpened in
  if Bool.eqb v old then ret tt
  else modify (upd__overlayOpened v) ;; _openedChanged v old.

(** [items && items.length], as a condition. *)
Definition hasItems (items : option (list Val)) : bool :=
  match items with
  | Some (_ :: _) => true
  | _ => false
  end.

Definition _openedOrItemsChanged (opened : bool) (items : option (list Val))
    (loading : bool) : M unit :=
  (if negb (hasItems items) then modify (upd___emptyItems true) else ret tt) ;;
  set__overlayOpened (opened && (loading || hasItems items)) ;;
  modify (upd___emptyItems false).

Definition _getFocusedItem (focusedIndex : Z) : M Val :=
  if 0 <=? focusedIndex then
    let* items := read _items in
    match items with
    | Some items => ret (index items focusedIndex)
    | None => throw (TypeError "Cannot read properties of undefined")
    end
  else ret Undefined.

Definition _scrollIntoView (index : Z) : M unit :=
  let* scroller := read _scroller in
  match scroller with
  | None => ret tt
  | Some scroller =>
      let* scroller' := lift (Scroller.scrollIntoView index scroller) in
      modify (upd__scroller (Some scroller'))
  end.

Definition adjustScrollPosition : M unit :=
  let* s := read id in
  if opened s && bool_decide (is_Some (_items s)) then _scrollIntoView (_focusedIndex s)
  else ret tt.

(** The observer passes [this._scroller] as [scroller]: the scroller that
    [setProperties] updates is the one the dropdown holds. *)
Definition __updateScroller (scroller : option Scroller.t) (items : option (list Val))
    (opened loading : bool) (selectedItem : Val) (itemIdPath : option string)
    (focusedIndex : Z) (renderer : option Renderer) (theme : option string) : M unit :=
  match scroller with
  | Some scroller =>
      modify (upd__scroller
                (Some (Scroller.setProperties (if opened then items else Some [])
                         opened loading selectedItem itemIdPath focusedIndex
                         renderer theme scroller)))
  | None => ret tt
  end.

Definition _isOverlayHidden (s : State) : bool :=
  negb (loading s) && negb (hasItems (_items s)).

Definition _positionTargetChanged (target : option PositionTarget) : M unit :=
  match target with
  | Some _ => _setOverlayWidth
  | None => ret tt
  end.

(** The event [IronResizableBehavior] fires on a resize:
    [this.fire('iron-resize', null, { node: this, bubbles: false })]. *)
Definition ironResizeEvent : Event :=
  {| type := "iron-resize"; detail := Obj []; bubbles := false; composed := true |}.

(** [super.notifyResize()], of [IronResizableBehavior] (a dependency, not
    under src/): on an attached element it fires [iron-resize] on the
    element. *)
Definition super_notifyResize : M unit := dispatchEvent ironResizeEvent.

Definition notifyResize : M unit :=
  super_notifyResize ;;
  let* s := read id in
  if bool_decide (is_Some (positionTarget s)) && opened s then _setOverlayWidth
  else ret tt.

Definition disconnectedCallback : M unit := set__overlayOpened false.

(** *** Property changes

    Assigning a declared property runs the effects that depend on it before
    the assignment returns: first the computed property, then the observers
    in the order of [static get observers]. Assigning the value a boolean or
    numeric property already has runs nothing. *)

Definition observe__openedOrItemsChanged : M unit :=
  let* s := read id in
  _openedOrItemsChanged (opened s) (_items s) (loading s).

Definition observe___updateScroller : M unit :=
  let* s := read id in
  __updateScroller (_scroller s) (_items s) (opened s) (loading s) (_selectedItem s)
    (_itemIdPath s) (_focusedIndex s) (renderer s) (theme s).

Definition set_opened (v : bool) : M unit :=
  let* old := read opened in
  if Bool.eqb v old then ret tt
  else modify (upd_opened v) ;; observe__openedOrItemsChanged ;; observe___updateScroller.

Definition set_loading (v : bool) : M unit :=
  let* old := read loading in
  if Bool.eqb v old then ret tt
  else modify (upd_loading v) ;; observe__openedOrItemsChanged ;; observe___updateScroller.

(** A new array (or [undefined]) is assigned to [_items]. *)
Definition set__items (v : option (list Val)) : M unit :=
  modify (upd__items v) ;; observe__openedOrItemsChanged ;; observe___updateScroller.

Definition set__focusedIndex (v : Z) : M unit :=
  let* old := read _focusedIndex in
  if v =? old then ret tt
  else
    modify (upd__focusedIndex v) ;;
    let* item := _getFocusedItem v in
    modify (upd_focusedItem item) ;;
    observe___updateScroller.

Definition set__selectedItem (v : Val) : M unit :=
  modify (upd__selectedItem v) ;; observe___updateScroller.

Definition set__itemIdPath (v : option string) : M unit :=
  modify (upd__itemIdPath v) ;; observe___updateScroller.

Definition set_renderer (v : option Renderer) : M unit :=
  modify (upd_renderer v) ;; observe___updateScroller.

Definition set_theme (v : option string) : M unit :=
  modify (upd_theme v) ;; observe___updateScroller.

Definition set_positionTarget (v : option PositionTarget) : M unit :=
  modify (upd_positionTarget v) ;; _positionTargetChanged v.

Definition set__scroller (v : option Scroller.t) : M unit :=
  modify (upd__scroller v) ;; observe___updateScroller.

(** *** Construction and [ready] *)

(** The element as constructed: every property at the default of
    [static get properties], nothing rendered yet. [touch] is
    [TOUCH_DEVICE] and [computed] the computed style of the host. *)
Definition constructed (touch : bool) (computed : gmap string string) : State :=
  {| touchDevice := touch; opened := false; positionTarget := None; renderer := None;
     loading := false; theme := None; _selectedItem := Undefined; _items := None;
     _focusedIndex := -1; focusedItem := Undefined; _itemLabelPath := "label";
     _itemValuePath := "value"; _scroller := None; _itemIdPath := None;
     _overlayOpened := false; __hostTagName := None; __emptyItems := false;
     overlayStyle := ∅; overlayPositionUpdates := 0%nat; hostStyle := computed;
     dispatched := [] |}.

(** [super.ready()]: the first run of the observers, on the initial
    values. *)
Definition super_ready : M unit :=
  observe__openedOrItemsChanged ;; observe___updateScroller.

Definition ready : M unit :=
  super_ready ;;
  modify (upd___hostTagName (Some (replace "-dropdown" "" is_))) ;;
  (* the overlay renders the scroller; [this._scroller] is that element *)
  set__scroller (Some Scroller.create) ;;
  let* scroller := read _scroller in
  match scroller with
  | None => throw (TypeError "Cannot set properties of undefined")
  | Some scroller =>
      modify (upd__scroller
                (Some (Scroller.addEventListener "index-requested" Scroller.ForwardScrollerEvent
                         (Scroller.addEventListener "selection-changed"
                            Scroller.ForwardScrollerEvent scroller))))
  end.

(** *** Events of the scroller *)

Definition invoke (l : Scroller.Listener) (e : Event) : M unit :=
  match l with
  | Scroller.ForwardScrollerEvent => _forwardScrollerEvent e
  end.

(** The listeners registered for the type of [e] run in registration
    order. *)
Fixpoint notify (ls : list (string * Scroller.Listener)) (e : Event) : M unit :=
  match ls with
  | [] => ret tt
  | (ty, l) :: rest =>
      (if String.eqb ty (type e) then invoke l e else ret tt) ;; notify rest e
  end.

(** The scroller dispatches [e] on itself. *)
Definition scrollerDispatch (e : Event) : M unit :=
  let* scroller := read _scroller in
  match scroller with
  | Some scroller => notify (Scroller.listeners scroller) e
  | None => ret tt
  end.

(** The scroller dispatches the events of [es] one after the other. *)
Fixpoint scrollerDispatchAll (es : list Event) : M unit :=
  match es with
  | [] => ret tt
  | e :: rest => scrollerDispatch e ;; scrollerDispatchAll rest
  end.

(** The test helper [scrollToIndex(comboBox, index)]:
    [comboBox.$.dropdown._scroller.__virtualizer.scrollToIndex(index)]. *)
Definition scrollToIndex (index : Z) : M unit :=
  let* scroller := read _scroller in
  match scroller with
  | None => throw (TypeError "Cannot read properties of undefined (reading '__virtualizer')")
  | Some scroller =>
      let* scroller' := lift (Scroller.scrollToIndex index scroller) in
      modify (upd__scroller (Some scroller'))
  end.

(** *** The label resolver *)

Section LabelResolver.

(** [this.get(path, root)] of the base class: the value at [path] in
    [root]. *)
Variable get : string -> Val -> Val.

Definition getItemLabel (this : State) (item : Val) (itemLabelPath : option string)
    : Result Val :=
  let itemLabelPath :=
    match itemLabelPath with
    | Some p => if String.eqb p "" then _itemLabelPath this else p
    | None => _itemLabelPath this
    end in
  let label :=
    if truthy item && negb (String.eqb itemLabelPath "")
    then get itemLabelPath item else Undefined in
  if nullish label then
    if truthy item then
      match toString item with
      | Ok str => Ok (Str str)
      | Throw e => Throw e
      end
    else Ok (Str "")
  else Ok label.

(** [String.prototype.toLowerCase] of the engine: the lower-case form of a
    string. *)
Variable toLowerCase : string -> string.

(** The loop of [indexOfLabel], from index [i] on. *)
Fixpoint indexOfLabel_from (this : State) (label : Val) (items : list Val) (i : Z)
    : Result Z :=
  match items with
  | [] => Ok (-1)
  | item :: rest =>
      match getItemLabel this item None with
      | Throw e => Throw e
      | Ok l =>
          match toString l with
          | Throw e => Throw e
          | Ok a =>
              match toString label with
              | Throw e => Throw e
              | Ok b =>
                  if String.eqb (toLowerCase a) (toLowerCase b) then Ok i
                  else indexOfLabel_from this label rest (i + 1)
              end
          end
      end
  end.

Definition indexOfLabel (this : State) (label : Val) : Result Z :=
  match _items this with
  | Some items =>
      if truthy label then indexOfLabel_from this label items 0 else Ok (-1)
  | None => Ok (-1)
  end.

End LabelResolver.

(** *** The life of a connected dropdown

    What happens to the element between [ready] and its removal from the
    document: the host assigns properties, the anchor is resized, the host's
    custom properties change, the host asks for the focused item to be
    scrolled into view, and the scroller and the overlay dispatch events. *)

Inductive Action : Type :=
| SetOpened (v : bool)
| SetLoading (v : bool)
| SetItems (v : option (list Val))
| SetFocusedIndex (v : Z)
| SetSelectedItem (v : Val)
| SetItemIdPath (v : option string)
| SetRenderer (v : option Renderer)
| SetTheme (v : option string)
| SetPositionTarget (v : option PositionTarget)
| HostStyleChanged (computed : gmap string string)
| NotifyResize
| AdjustScrollPosition
| ScrollerEvent (e : Event)
| OverlayTouch (sourceEvent : Val).

Definition perform (a : Action) : M unit :=
  match a with
  | SetOpened v => set_opened v
  | SetLoading v => set_loading v
  | SetItems v => set__items v
  | SetFocusedIndex v => set__focusedIndex v
  | SetSelectedItem v => set__selectedItem v
  | SetItemIdPath v => set__itemIdPath v
  | SetRenderer v => set_renderer v
  | SetTheme v => set_theme v
  | SetPositionTarget v => set_positionTarget v
  | HostStyleChanged computed => modify (upd_hostStyle computed)
  | NotifyResize => notifyResize
  | AdjustScrollPosition => adjustScrollPosition
  | ScrollerEvent e => scrollerDispatch e
  | OverlayTouch sourceEvent => _fireTouchAction sourceEvent
  end.

(** The states of a connected dropdown whose overlay is driven by the
    dropdown alone, and on which every action so far returned: an action
    that throws has no successor here. *)
Inductive reachable : State -> Prop :=
| reachable_ready touch computed s :
    exec ready (constructed touch computed) = Ok s -> reachable s
| reachable_perform a s s' :
    reachable s -> exec (perform a) s = Ok s' -> reachable s'.

(** *** The whole life of the dropdown

    Beside the actions above, the element can be detached from the document
    ([disconnectedCallback]), and the overlay can change its own [opened],
    which the two-way binding [opened="{{_overlayOpened}}"] of the template
    writes back to [_overlayOpened]. *)

Inductive Step : Type :=
| Act (a : Action)
| Detach
| OverlayOpenedChanged (v : bool).

Definition step (t : Step) : M unit :=
  match t with
  | Act a => perform a
  | Detach => disconnectedCallback
  | OverlayOpenedChanged v => set__overlayOpened v
  end.

(** The states of a dropdown, connected or detached, on which every step
    so far returned. *)
Inductive attainable : State -> Prop :=
| attainable_ready touch computed s :
    exec ready (constructed touch computed) = Ok s -> attainable s
| attainable_step t s s' :
    attainable s -> exec (step t) s = Ok s' -> attainable s'.

(** The assignments that change [opened], [loading] or [_items], and so run
    [_openedOrItemsChanged]. *)
Definition changes_input (a : Action) (s : State) : bool :=
  match a with
  | SetOpened v => negb (Bool.eqb v (opened s))
  | SetLoading v => negb (Bool.eqb v (loading s))
  | SetItems _ => true
  | _ => false
  end.

(** How many events of type [ty] a log holds. *)
Definition count_type (ty : string) (log : list Event) : nat :=
  length (filter (fun e => type e = ty) log).

(** The overlay's custom properties [_setOverlayWidth] writes. *)
Definition widthProperty (s : State) : string :=
  "--" +:+ (hostTagName s +:+ "-overlay") +:+ "-width".

Definition defaultWidthProperty (s : State) : string :=
  "--_" +:+ (hostTagName s +:+ "-overlay") +:+ "-default-width".

(** Modelled from the spec: the width the overlay takes. The style sheet of
    the overlay is not under src/; per the spec the explicit width override
    is preferred when it is set, and the width otherwise mirrors the
    anchor's client width, which [_setOverlayWidth] stores in the overlay's
    default-width property. *)
Definition overlayWidth (s : State) : option string :=
  match overlayStyle s !! widthProperty s with
  | Some w => Some w
  | None => overlayStyle s !! defaultWidthProperty s
  end.

(** The overlay shows when it is opened and not hidden (the [opened] and
    [hidden] bindings of the template). *)
Definition overlayVisible (s : State) : bool :=
  _overlayOpened s && negb (_isOverlayHidden s).

(** *** Definitions used in the statements and proofs *)

Definition openedEvent : Event :=
  CustomEvent "vaadin-combo-box-dropdown-opened" None (Some true) (Some true).

Definition closedEvent : Event :=
  CustomEvent "vaadin-combo-box-dropdown-closed" None (Some true) (Some true).

(** The listeners [ready] leaves on the scroller. *)
Definition ready_listeners : list (string * Scroller.Listener) :=
  [("selection-changed", Scroller.ForwardScrollerEvent);
   ("index-requested", Scroller.ForwardScrollerEvent)].

(** The part of the state the overlay controller writes: the overlay's style
    and position, the scroller, [_overlayOpened], [__emptyItems] and the
    event log. *)
Definition patch (st : gmap string string) (n : nat) (sc : option Scroller.t)
    (ov em : bool) (log : list Event) (s : State) : State :=
  upd_dispatched log
    (upd___emptyItems em
       (upd__overlayOpened ov
          (upd__scroller sc
             (upd_overlayPositionUpdates n (upd_overlayStyle st s))))).

(** The events a change of [_overlayOpened] from [old] to [v] dispatches,
    with [__emptyItems] at [flag]. *)
Definition overlay_events (old v flag : bool) : list Event :=
  if Bool.eqb v old then []
  else if v then [openedEvent]
  else if old && negb flag then [closedEvent]
  else [].

(** What holds of a connected dropdown between two actions. *)
Record Inv (s : State) : Prop := {
  inv_scroller :
    exists sc, _scroller s = Some sc /\ Scroller.listeners sc = ready_listeners
               /\ Scroller.items sc = (if opened s then _items s else Some []);
  inv_overlay : _overlayOpened s = opened s && (loading s || hasItems (_items s));
  inv_empty : __emptyItems s = false
}.

(** The state after both observers of the inputs ran: [h] is the scroller's
    [maxHeight], [st] and [n] the overlay's style and position count. *)
Definition observed (st : gmap string string) (n : nat) (h : string) (sc : Scroller.t)
    (s : State) : State :=
  let v := opened s && (loading s || hasItems (_items s)) in
  patch st n
    (Some (Scroller.setProperties (if opened s then _items s else Some []) (opened s)
             (loading s) (_selectedItem s) (_itemIdPath s) (_focusedIndex s) (renderer s)
             (theme s) (Scroller.set_maxHeight h sc)))
    v false
    (dispatched s
     ++ overlay_events (_overlayOpened s) v (negb (hasItems (_items s)) || __emptyItems s))
    s.

(** The event [_forwardScrollerEvent] dispatches for [e]. *)
Definition forwarded (e : Event) : Event :=
  CustomEvent (type e) (Some (detail e)) None None.

(** The event types [ready] listens to on the scroller. *)
Definition relayed (ty : string) : bool :=
  String.eqb ty "selection-changed" || String.eqb ty "index-requested".

(** The dropdown right after [ready]. *)
Definition readied (touch : bool) (computed : gmap string string) : State :=
  upd__scroller
    (Some (Scroller.addEventListener "index-requested" Scroller.ForwardScrollerEvent
             (Scroller.addEventListener "selection-changed" Scroller.ForwardScrollerEvent
                (Scroller.setProperties (Some []) false false Undefined None (-1) None None
                   Scroller.create))))
    (upd___hostTagName (Some "vaadin-combo-box") (constructed touch computed)).

(** The property changes that feed the overlay: [opened], [loading] and
    [_items]. *)
Definition is_input (a : Action) : bool :=
  match a with
  | SetOpened _ | SetLoading _ | SetItems _ => true
  | _ => false
  end.

(** The actions of a list, one after the other. *)
Fixpoint performAll (acts : list Action) : M unit :=
  match acts with
  | [] => ret tt
  | a :: rest => perform a ;; performAll rest
  end.

(** A connected dropdown whose host has supplied one item and opened it. *)
Definition demo_open : list Action :=
  [SetItems (Some [Obj [("label", Str "Item 0")]]); SetOpened true].


(** The state the actions [acts] leave a freshly readied dropdown in
    (the readied state itself, should one of them throw). *)
Definition after (acts : list Action) : State :=
  match exec (performAll acts) (readied false ∅) with
  | Ok s => s
  | Throw _ => readied false ∅
  end.

(** A readied dropdown whose position target is 200 pixels wide. *)
Definition demo_anchored : State :=
  upd_positionTarget (Some {| clientWidth := 200 |}) (readied false ∅).

(** Two events of the scroller. *)
Definition demo_events : list Event :=
  [CustomEvent "selection-changed" (Some (Obj [("item", Str "Item 0")])) None None;
   CustomEvent "index-requested" (Some (Obj [("index", Num 50)])) None None].

(** The steps of a list, one after the other. *)
Fixpoint stepAll (ts : list Step) : M unit :=
  match ts with
  | [] => ret tt
  | t :: rest => step t ;; stepAll rest
  end.

(** The state the steps [ts] leave a freshly readied dropdown in (the
    readied state itself, should one of them throw). *)
Definition after_steps (ts : list Step) : State :=
  match exec (stepAll ts) (readied false ∅) with
  | Ok s => s
  | Throw _ => readied false ∅
  end.

(** A dropdown that was given an item and opened, and then detached. *)
Definition demo_detached : list Step :=
  map Act demo_open ++ [Detach].

(** A connected dropdown whose first item got the focus before the host
    replaced the items. *)
Definition demo_stale : list Action :=
  demo_open ++ [SetFocusedIndex 0; SetItems (Some [Str "other"])].

(** A connected dropdown holding one hundred items, opened. *)
Definition demo_hundred : list Action :=
  [SetItems (Some (map (fun i => Str ("item " +:+ pretty i)) (seq 0 100)));
   SetOpened true].

(** The scroller of that dropdown. *)
Definition demo_scroller : Scroller.t :=
  match _scroller (after demo_hundred) with
  | Some sc => sc
  | None => Scroller.create
  end.

(** *** A path resolver on plain data

    The labels of the examples are read with [path_get]: the path is split
    at its dots, and each part is looked up among the own properties of the
    object reached so far; the walk stops with [undefined] on a falsy
    value. *)

Fixpoint split_path (path : string) : list string :=
  match path with
  | EmptyString => [EmptyString]
  | String c rest =>
      if Ascii.eqb c "."%char then EmptyString :: split_path rest
      else match split_path rest with
           | [] => [String c EmptyString]
           | part :: parts => String c part :: parts
           end
  end.

Definition member (part : string) (v : Val) : Val :=
  match v with
  | Obj fields => default Undefined (own part fields)
  | _ => Undefined
  end.

Fixpoint walk (parts : list string) (v : Val) : Val :=
  match parts with
  | [] => v
  | part :: rest => if truthy v then walk rest (member part v) else Undefined
  end.

Definition path_get (path : string) (root : Val) : Val := walk (split_path path) root.

(** [itemLabelPath || this._itemLabelPath] *)
Definition labelPath (this : State) (itemLabelPath : option string) : string :=
  match itemLabelPath with
  | Some p => if String.eqb p "" then _itemLabelPath this else p
  | None => _itemLabelPath this
  end.

(** The label of an item as a string:
    [this.getItemLabel(item).toString()]. *)
Definition labelString (get : string -> Val -> Val) (this : State) (item : Val)
    : Result string :=
  match getItemLabel get this item None with
  | Ok l => toString l
  | Throw e => Throw e
  end.

(** The item's label is the string [b], up to case. *)
Definition agrees (get : string -> Val -> Val) (toLowerCase : string -> string)
    (this : State) (b : string) (item : Val) : Prop :=
  exists a, labelString get this item = Ok a /\ toLowerCase a = toLowerCase b.

(** The item's label is a string other than [b], up to case. *)
Definition differs (get : string -> Val -> Val) (toLowerCase : string -> string)
    (this : State) (b : string) (item : Val) : Prop :=
  exists a, labelString get this item = Ok a /\ toLowerCase a <> toLowerCase b.

(** [indexOfLabel] in the words of the specification: for a truthy label it
    returns the smallest index whose item's resolved label equals the label
    up to case, whatever the items before it are. *)
Definition indexOfLabel_claimed (get : string -> Val -> Val)
    (toLowerCase : string -> string) : Prop :=
  forall this label b items i item,
    _items this = Some items -> truthy label = true -> toString label = Ok b ->
    items !! i = Some item -> agrees get toLowerCase this b item ->
    (forall j item', (j < i)%nat -> items !! j = Some item' ->
                     ~ agrees get toLowerCase this b item') ->
    indexOfLabel get toLowerCase this label = Ok (Z.of_nat i).

(** Booleans, numbers and strings. *)
Definition primitive (v : Val) : bool :=
  match v with
  | Bool _ | Num _ | NaN | Str _ => true
  | _ => false
  end.

(** The value at the label path of an item, in the words of the
    specification: there is none for an absent item or without a path. *)
Definition labelAt (get : string -> Val -> Val) (this : State) (item : Val)
    (itemLabelPath : option string) : Val :=
  if nullish item || String.eqb (labelPath this itemLabelPath) "" then Undefined
  else get (labelPath this itemLabelPath) item.

(** [getItemLabel] in the words of the specification: the value at the label
    path when it is neither [undefined] nor [null]; otherwise the string
    coercion of the item, the empty string for an absent item; and no
    exception, whatever the item. *)
Definition getItemLabel_claimed (get : string -> Val -> Val) : Prop :=
  forall this item itemLabelPath,
    (nullish (labelAt get this item itemLabelPath) = false ->
     getItemLabel get this item itemLabelPath = Ok (labelAt get this item itemLabelPath))
    /\ (nullish (labelAt get this item itemLabelPath) = true -> nullish item = false ->
        exists str, toString item = Ok str
                    /\ getItemLabel get this item itemLabelPath = Ok (Str str))
    /\ (nullish item = true -> getItemLabel get this item itemLabelPath = Ok (Str ""))
    /\ is_ok (getItemLabel get this item itemLabelPath) = true.

(** A dropdown whose first item has no label and cannot be coerced to a
    string. *)
Definition demo_uncoercible : State :=
  upd__items (Some [Obj [("toString", Num 5)]; Str "Banana"]) (readied false ∅).

(** A dropdown holding three labelled items. *)
Definition demo_labelled : State :=
  upd__items (Some [Obj [("label", Str "Apple")]; Str "Banana"; Obj [("label", Str "banana")]])
    (readied false ∅).

(** *** The outcome of actions *)

(** The host's custom property [_openedChanged] reads the scroller's maximal
    height from. *)
Definition maxHeightProperty (s : State) : string :=
  "--" +:+ hostTagName s +:+ "-overlay-max-height".

(** The event [_fireTouchAction] dispatches. *)
Definition touchActionEvent (sourceEvent : Val) : Event :=
  CustomEvent "vaadin-overlay-touch-action" (Some (Obj [("sourceEvent", sourceEvent)]))
    None None.

(** The events an action appends to the log, given the overlay state before
    and after it. *)
Definition appended (a : Action) (s s' : State) : list Event :=
  match a with
  | SetOpened _ | SetLoading _ | SetItems _ =>
      overlay_events (_overlayOpened s) (_overlayOpened s') (negb (hasItems (_items s')))
  | NotifyResize => [ironResizeEvent]
  | ScrollerEvent e => if relayed (type e) then [forwarded e] else []
  | OverlayTouch sourceEvent => [touchActionEvent sourceEvent]
  | _ => []
  end.

(** The scroller after [__updateScroller] pushed the properties of [s]. *)
Definition pushed (sc : Scroller.t) (s : State) : Scroller.t :=
  Scroller.setProperties (if opened s then _items s else Some []) (opened s) (loading s)
    (_selectedItem s) (_itemIdPath s) (_focusedIndex s) (renderer s) (theme s) sc.

(** The actions that can leave the dropdown untouched: an assignment of the
    value the property has, or a scroll adjustment with nothing to do. *)
Definition may_skip (a : Action) : bool :=
  match a with
  | SetOpened _ | SetLoading _ | SetFocusedIndex _ | AdjustScrollPosition => true
  | _ => false
  end.

(** The states an action can leave a dropdown in whose scroller is [sc]. *)
Inductive outcome (s : State) (sc : Scroller.t) : Action -> State -> Prop :=
| out_same a : may_skip a = true -> outcome s sc a s
| out_opened v st n h :
    outcome s sc (SetOpened v) (observed st n h sc (upd_opened v s))
| out_loading v st n h :
    outcome s sc (SetLoading v) (observed st n h sc (upd_loading v s))
| out_items v st n h :
    outcome s sc (SetItems v) (observed st n h sc (upd__items v s))
| out_focusedIndex v item :
    outcome s sc (SetFocusedIndex v)
      (upd__scroller (Some (pushed sc (upd__focusedIndex v s)))
         (upd_focusedItem item (upd__focusedIndex v s)))
| out_selectedItem v :
    outcome s sc (SetSelectedItem v)
      (upd__scroller (Some (pushed sc (upd__selectedItem v s))) (upd__selectedItem v s))
| out_itemIdPath v :
    outcome s sc (SetItemIdPath v)
      (upd__scroller (Some (pushed sc (upd__itemIdPath v s))) (upd__itemIdPath v s))
| out_renderer v :
    outcome s sc (SetRenderer v)
      (upd__scroller (Some (pushed sc (upd_renderer v s))) (upd_renderer v s))
| out_theme v :
    outcome s sc (SetTheme v)
      (upd__scroller (Some (pushed sc (upd_theme v s))) (upd_theme v s))
| out_positionTarget v st n :
    outcome s sc (SetPositionTarget v)
      (upd_overlayPositionUpdates n (upd_overlayStyle st (upd_positionTarget v s)))
| out_hostStyle computed :
    outcome s sc (HostStyleChanged computed) (upd_hostStyle computed s)
| out_resize st n :
    outcome s sc NotifyResize
      (upd_overlayPositionUpdates n
         (upd_overlayStyle st (upd_dispatched (dispatched s ++ [ironResizeEvent]) s)))
| out_scroll target :
    outcome s sc AdjustScrollPosition
      (upd__scroller (Some (Scroller.set_scrollTarget target sc)) s)
| out_event e :
    outcome s sc (ScrollerEvent e)
      (upd_dispatched (dispatched s ++ (if relayed (type e) then [forwarded e] else [])) s)
| out_touch sourceEvent :
    outcome s sc (OverlayTouch sourceEvent)
      (upd_dispatched (dispatched s ++ [touchActionEvent sourceEvent]) s).

(** Whether the action assigns [_focusedIndex]. *)
Definition sets_focusedIndex (a : Action) : bool :=
  match a with
  | SetFocusedIndex _ => true
  | _ => false
  end.

(** The scroller holds the properties of the dropdown it was last given. *)
Definition mirrors (sc : Scroller.t) (s : State) : Prop :=
  Scroller.opened sc = opened s /\ Scroller.loading sc = loading s
  /\ Scroller.selectedItem sc = _selectedItem s
  /\ Scroller.itemIdPath sc = _itemIdPath s
  /\ Scroller.focusedIndex sc = _focusedIndex s
  /\ Scroller.renderer sc = renderer s /\ Scroller.theme sc = theme s.

(** One when the overlay is opened, zero otherwise. *)
Definition open_count (s : State) : nat := if _overlayOpened s then 1%nat else 0%nat.

(** A connected dropdown that was opened, emptied and filled again. *)
Definition demo_refilled : list Action :=
  demo_open ++ [SetItems (Some []); SetItems (Some [Str "Item 1"; Str "Item 2"])].

(** The maximal height [_openedChanged] gives the scroller. *)
Definition maxHeightValue (s : State) : string :=
  let value := getPropertyValue (hostStyle s) (maxHeightProperty s) in
  if String.eqb value "" then "65vh" else value.

(** A readied dropdown whose host sets a maximal height and a width for the
    overlay. *)
Definition demo_styled : State :=
  upd_positionTarget (Some {| clientWidth := 200 |})
    (readied false {[ "--vaadin-combo-box-overlay-max-height" := "20em";
                      "--vaadin-combo-box-overlay-width" := "30em" ]}).

End Dropdown.

(** ** The test helpers of the combo box *)

Module Helpers.
Import Js Dropdown.

(** [makeItems(length)]:
    [Array(...new Array(length)).map((_, i) => `item ${i}`)]. *)
Definition makeItems (length : nat) : list Val :=
  map (fun i => Str ("item " +:+ pretty (Z.of_nat i))) (seq 0 length).

(** A rendered [vaadin-combo-box-item] element. *)
Record ItemElement : Type := {
  index : Z;
  hidden : bool;
  item : Val
}.

(** [a.index - b.index <= 0]: [a] is not to come after [b]. *)
Definition byIndex (a b : ItemElement) : Prop := index a <= index b.

#[global] Instance byIndex_dec : RelDecision byIndex :=
  fun a b => decide (index a <= index b).

(** [getAllItems(comboBox)], on the elements the query for
    [vaadin-combo-box-item] finds in the scroller:
    [.filter((item) => !item.hidden).sort((a, b) => a.index - b.index)].
    The order in which the sort leaves elements of equal [index] is not
    modelled. *)
Definition getAllItems (rendered : list ItemElement) : list ItemElement :=
  merge_sort byIndex (filter (fun e => hidden e = false) rendered).

(** A readied dropdown given the hundred items of [makeItems(100)]. *)
Definition demo_made : State :=
  upd__items (Some (makeItems 100)) (readied false ∅).

End Helpers.

(** ** The package clean-up script ([scripts/updatePackage.js])

    The script reads the [package.json] of a package, edits the parsed
    object and writes it back. [updatePackage] is the edit: from the object
    read to the object written. *)

Module UpdatePackage.
Import Js.

(** The parsed [package.json]: the members the script touches, and the
    others. The versions of [dependencies] and [devDependencies] are
    strings. *)
Record PackageJson : Type := {
  scripts : option Val;
  husky : option Val;
  lint_staged : option Val;                       (* ['lint-staged'] *)
  dependencies : option (gmap string string);
  devDependencies : option (gmap string string);
  others : gmap string Val
}.

Definition with_dependencies (deps : gmap string string) (p : PackageJson) : PackageJson :=
  {| scripts := scripts p; husky := husky p; lint_staged := lint_staged p;
     dependencies := Some deps; devDependencies := devDependencies p;
     others := others p |}.

Definition with_devDependencies (dev : gmap string string) (p : PackageJson)
    : PackageJson :=
  {| scripts := scripts p; husky := husky p; lint_staged := lint_staged p;
     dependencies := dependencies p; devDependencies := Some dev;
     others := others p |}.

(** The tools dropped from [devDependencies]. *)
Definition tools : list string :=
  ["@open-wc/rollup-plugin-html"; "@polymer/iron-component-page";
   "@rollup/plugin-node-resolve"; "@web/dev-server"; "@web/test-runner";
   "@web/test-runner-saucelabs"; "eslint"; "eslint-config-prettier";
   "eslint-plugin-prettier"; "hermione"; "hermione-esm"; "hermione-sauce"; "husky";
   "lint-staged"; "magi-cli"; "prettier"; "rimraf"; "rollup"; "rollup-plugin-terser";
   "stylelint"; "stylelint-config-prettier"; "stylelint-config-vaadin"; "typescript"].

(** The packages pinned to [^3.0.0-alpha1]. *)
Definition pinned3 : list string :=
  ["@vaadin/vaadin-button"; "@vaadin/vaadin-confirm-dialog"; "@vaadin/vaadin-dialog";
   "@vaadin/vaadin-form-layout"].

(** The packages pinned to [^2.0.0-alpha1]. *)
Definition pinned2 : list string :=
  ["@vaadin/vaadin-progress-bar"; "@vaadin/vaadin-ordered-layout";
   "@vaadin/vaadin-radio-button"].

(** [list.forEach(f)], where [f] edits the object or throws. *)
Fixpoint forEach (l : list string) (f : string -> PackageJson -> Result PackageJson)
    (p : PackageJson) : Result PackageJson :=
  match l with
  | [] => Ok p
  | x :: rest =>
      match f x p with
      | Ok p' => forEach rest f p'
      | Throw e => Throw e
      end
  end.

(** [delete packageJson.devDependencies[dep]] *)
Definition dropTool (dep : string) (p : PackageJson) : Result PackageJson :=
  match devDependencies p with
  | Some dev => Ok (with_devDependencies (delete dep dev) p)
  | None => Throw (TypeError "Cannot convert undefined or null to object")
  end.

(** [if (m[dep]) m[dep] = version]: a version is truthy when it is not the
    empty string. *)
Definition pinIn (version dep : string) (m : gmap string string) : gmap string string :=
  match m !! dep with
  | Some v => if String.eqb v "" then m else <[dep := version]> m
  | None => m
  end.

(** The body of the two pinning loops. *)
Definition pin (version dep : string) (p : PackageJson) : Result PackageJson :=
  match dependencies p with
  | None => Throw (TypeError "Cannot read properties of undefined")
  | Some deps =>
      let p := with_dependencies (pinIn version dep deps) p in
      match devDependencies p with
      | None => Throw (TypeError "Cannot read properties of undefined")
      | Some dev => Ok (with_devDependencies (pinIn version dep dev) p)
      end
  end.

Definition updatePackage (p : PackageJson) : Result PackageJson :=
  let p := {| scripts := None; husky := None; lint_staged := None;
              dependencies := dependencies p; devDependencies := devDependencies p;
              others := others p |} in
  match forEach tools dropTool p with
  | Throw e => Throw e
  | Ok p =>
      match forEach pinned3 (pin "^3.0.0-alpha1") p with
      | Throw e => Throw e
      | Ok p => forEach pinned2 (pin "^2.0.0-alpha1") p
      end
  end.

(** The entry of [k] after the packages of [l] were pinned to [version]. *)
Definition pinnedIn (version : string) (l : list string) (k : string)
    (entry : option string) : option string :=
  if bool_decide (k ∈ l)
  then match entry with
       | Some v => if String.eqb v "" then Some v else Some version
       | None => None
       end
  else entry.

(** The version the script pins a package to, if any. *)
Definition pinnedVersion (dep : string) : option string :=
  if bool_decide (dep ∈ pinned3) then Some "^3.0.0-alpha1"
  else if bool_decide (dep ∈ pinned2) then Some "^2.0.0-alpha1"
  else None.

(** The entry the script leaves for [dep] in a dependency map, from the
    entry it found. *)
Definition pinnedEntry (dep : string) (entry : option string) : option string :=
  match entry, pinnedVersion dep with
  | Some v, Some version => if String.eqb v "" then Some v else Some version
  | _, _ => entry
  end.

(** The [package.json] of a component package. *)
Definition demo_package : PackageJson :=
  {| scripts := Some (Obj [("test", Str "wtr")]);
     husky := None;
     lint_staged := Some (Obj []);
     dependencies := Some {[ "@polymer/polymer" := "^3.0.0";
                             "@vaadin/vaadin-button" := "^2.4.0" ]};
     devDependencies := Some {[ "eslint" := "^7.0.0"; "sinon" := "^9.2.0";
                                "@vaadin/vaadin-dialog" := "^2.5.0" ]};
     others := {[ "name" := Str "@vaadin/vaadin-upload" ]} |}.

End UpdatePackage.

(** ** The text area ([packages/text-area/src/vaadin-text-area.js])

    [_updateHeight] lets the [textarea] grow with its content. It reads
    what the browser lays out (computed styles, scroll and client heights)
    and writes inline styles. *)

Module TextArea.

(** An element: its inline style and its scroll position. *)
Record Element : Type := {
  style : gmap string string;
  scrollTop : Z
}.

(** The text area: [value], the private [_oldValueLength] (undefined at
    first), the slotted [textarea] ([inputElement]), the [input-field] part
    ([_inputField]), and the calls of [_dispatchIronResizeEventIfNeeded]
    made so far, oldest first. *)
Record State : Type := {
  value : option string;
  _oldValueLength : option nat;
  inputElement : option Element;
  _inputField : option Element;
  resizeChecks : list (string * Z)
}.

(** What the browser lays out for a state of the text area:
    [getComputedStyle(inputField).height], [getComputedStyle(input).width],
    [input.scrollHeight] and [input.clientHeight]. *)
Record Layout : Type := {
  computedHeight : State -> string;
  computedWidth : State -> string;
  scrollHeight : State -> Z;
  clientHeight : State -> Z
}.

Definition setProperty (name v : string) (e : Element) : Element :=
  {| style := <[name := v]> (style e); scrollTop := scrollTop e |}.

Definition removeProperty (name : string) (e : Element) : Element :=
  {| style := delete name (style e); scrollTop := scrollTop e |}.

Definition set_scrollTop (top : Z) (e : Element) : Element :=
  {| style := style e; scrollTop := top |}.

(** An edit of [this.inputElement]. *)
Definition on_input (f : Element -> Element) (this : State) : State :=
  {| value := value this; _oldValueLength := _oldValueLength this;
     inputElement := f <$> inputElement this; _inputField := _inputField this;
     resizeChecks := resizeChecks this |}.

(** An edit of [this._inputField]. *)
Definition on_inputField (f : Element -> Element) (this : State) : State :=
  {| value := value this; _oldValueLength := _oldValueLength this;
     inputElement := inputElement this; _inputField := f <$> _inputField this;
     resizeChecks := resizeChecks this |}.

Definition set__oldValueLength (n : nat) (this : State) : State :=
  {| value := value this; _oldValueLength := Some n;
     inputElement := inputElement this; _inputField := _inputField this;
     resizeChecks := resizeChecks this |}.

(** [this._dispatchIronResizeEventIfNeeded(name, v)], of a mixin. *)
Definition _dispatchIronResizeEventIfNeeded (name : string) (v : Z) (this : State)
    : State :=
  {| value := value this; _oldValueLength := _oldValueLength this;
     inputElement := inputElement this; _inputField := _inputField this;
     resizeChecks := resizeChecks this ++ [(name, v)] |}.

(** [this.value ? this.value.length : 0] *)
Definition valueLength (this : State) : nat :=
  match value this with
  | Some v => String.length v
  | None => 0
  end.

(** [this._oldValueLength >= valueLength]: false while [_oldValueLength] is
    undefined. *)
Definition notLonger (this : State) : bool :=
  match _oldValueLength this with
  | Some old => Nat.leb (valueLength this) old
  | None => false
  end.

Definition _updateHeight (layout : Layout) (this : State) : State :=
  match inputElement this, _inputField this with
  | Some _, Some inputField =>
      let top := scrollTop inputField in
      let length := valueLength this in
      let this1 :=
        if notLonger this then
          let inputFieldHeight := computedHeight layout this in
          let inputWidth := computedWidth layout this in
          on_input (setProperty "height" "auto")
            (on_input (setProperty "max-width" inputWidth)
               (on_inputField (setProperty "height" inputFieldHeight)
                  (on_inputField (setProperty "display" "block") this)))
        else this in
      let this2 := set__oldValueLength length this1 in
      let inputHeight := scrollHeight layout this2 in
      let this3 :=
        if clientHeight layout this2 <? inputHeight
        then on_input (setProperty "height" (pretty inputHeight +:+ "px")) this2
        else this2 in
      _dispatchIronResizeEventIfNeeded "InputHeight" inputHeight
        (on_inputField (set_scrollTop top)
           (on_inputField (removeProperty "height")
              (on_inputField (removeProperty "display")
                 (on_input (removeProperty "max-width") this3))))
  | _, _ => this
  end.

(** The text area at the moment [_updateHeight] reads [input.scrollHeight]
    and [input.clientHeight]: the temporary styles are set when the value
    did not get longer, and [_oldValueLength] is updated. *)
Definition measured (layout : Layout) (this : State) : State :=
  set__oldValueLength (valueLength this)
    (if notLonger this then
       on_input (setProperty "height" "auto")
         (on_input (setProperty "max-width" (computedWidth layout this))
            (on_inputField (setProperty "height" (computedHeight layout this))
               (on_inputField (setProperty "display" "block") this)))
     else this).

(** [_onAnimationEnd(e)], given [e.animationName]:
    [animationName.indexOf('vaadin-text-area-appear') === 0]. *)
Definition _onAnimationEnd (layout : Layout) (animationName : string) (this : State)
    : State :=
  if String.prefix "vaadin-text-area-appear" animationName
  then _updateHeight layout this
  else this.

(** The inline style of an element that may be absent. *)
Definition styleOf (e : option Element) : gmap string string :=
  match e with
  | Some e => style e
  | None => ∅
  end.

(** A layout in which the content is 20 pixels high for each 10 characters
    begun, and the textarea as high as its inline height says (40 pixels
    without one). *)
Definition demo_layout : Layout :=
  {| computedHeight := fun _ => "40px";
     computedWidth := fun _ => "200px";
     scrollHeight := fun s => 20 * (1 + Z.of_nat (valueLength s) / 10);
     clientHeight := fun s =>
       match styleOf (inputElement s) !! "height" with
       | Some "60px" => 60
       | _ => 40
       end |}.

(** A text area holding 25 characters, not measured yet. *)
Definition demo_area : State :=
  {| value := Some "abcdefghijklmnopqrstuvwxy";
     _oldValueLength := None;
     inputElement := Some {| style := ∅; scrollTop := 0 |};
     _inputField := Some {| style := {[ "display" := "flex" ]}; scrollTop := 7 |};
     resizeChecks := [] |}.

End TextArea.

Import Js Dropdown.

(** * Proofs *)

(** ** The model at work *)

Example toString_number : toString (Num 42) = Ok "42" /\ toString (Num (-7)) = Ok "-7".
Proof. split; reflexivity. Qed.

Example toString_array :
  toString (Arr [Num 1; Null; Str "a"; Arr [Bool true; Num 0]]) = Ok "1,,a,true,0".
Proof. reflexivity. Qed.

Example toString_object :
  toString (Obj [("label", Str "a")]) = Ok "[object Object]"
  /\ is_ok (toString (Obj [("toString", Num 5)])) = false.
Proof. split; reflexivity. Qed.

Example toLowerCase_ascii_folds : toLowerCase_ascii "Item 0 [Z]" = "item 0 [z]".
Proof. reflexivity. Qed.

Example hostTagName_of_is : replace "-dropdown" "" is_ = "vaadin-combo-box".
Proof. reflexivity. Qed.

Example path_get_nested :
  path_get "name.first" (Obj [("name", Obj [("first", Str "Ada")])]) = Str "Ada"
  /\ path_get "label" (Str "plain") = Undefined.
Proof. split; reflexivity. Qed.

Example opened_then_closed :
  dispatched (after (demo_open ++ [SetOpened false])) = [openedEvent; closedEvent].
Proof. vm_compute. reflexivity. Qed.

Example emptied_while_open :
  dispatched (after (demo_open ++ [SetItems (Some [])])) = [openedEvent]
  /\ _overlayOpened (after (demo_open ++ [SetItems (Some [])])) = false.
Proof. split; vm_compute; reflexivity. Qed.

Example width_follows_anchor :
  (overlayWidth <$> (match exec _setOverlayWidth demo_anchored with
                     | Ok s => Some s
                     | Throw _ => None
                     end)) = Some (Some "200px").
Proof. vm_compute. reflexivity. Qed.

(** ** Running the methods *)

(** Unfold the monad. *)
Ltac msimpl :=
  cbv beta iota delta [bind ret read modify throw lift id exec] in *.

(** Normalise a state built from field updates. *)
Ltac pnorm :=
  cbv beta iota delta [touchDevice opened positionTarget renderer loading theme _selectedItem _items
       _focusedIndex focusedItem _itemLabelPath _itemValuePath _scroller _itemIdPath
       _overlayOpened __hostTagName __emptyItems overlayStyle overlayPositionUpdates
       hostStyle dispatched
       upd_opened upd_positionTarget upd_renderer upd_loading upd_theme upd__selectedItem
       upd__items upd__focusedIndex upd_focusedItem upd__itemLabelPath upd__scroller
       upd__itemIdPath upd__overlayOpened upd___hostTagName upd___emptyItems
       upd_overlayStyle upd_overlayPositionUpdates upd_hostStyle upd_dispatched
       patch hostTagName
       Scroller.items Scroller.opened Scroller.loading Scroller.selectedItem
       Scroller.itemIdPath Scroller.focusedIndex Scroller.renderer Scroller.theme
       Scroller.maxHeight Scroller.listeners Scroller.scrollTarget
       Scroller.setProperties Scroller.set_maxHeight Scroller.addEventListener
       Scroller.set_scrollTarget] in *.

(** Read a field through field updates. *)
Ltac psimpl :=
  cbn [touchDevice opened positionTarget renderer loading theme _selectedItem _items
       _focusedIndex focusedItem _itemLabelPath _itemValuePath _scroller _itemIdPath
       _overlayOpened __hostTagName __emptyItems overlayStyle overlayPositionUpdates
       hostStyle dispatched
       upd_opened upd_positionTarget upd_renderer upd_loading upd_theme upd__selectedItem
       upd__items upd__focusedIndex upd_focusedItem upd__itemLabelPath upd__scroller
       upd__itemIdPath upd__overlayOpened upd___hostTagName upd___emptyItems
       upd_overlayStyle upd_overlayPositionUpdates upd_hostStyle upd_dispatched
       patch hostTagName
       Scroller.items Scroller.opened Scroller.loading Scroller.selectedItem
       Scroller.itemIdPath Scroller.focusedIndex Scroller.renderer Scroller.theme
       Scroller.maxHeight Scroller.listeners Scroller.scrollTarget
       Scroller.setProperties Scroller.set_maxHeight Scroller.addEventListener
       Scroller.set_scrollTarget] in *.

Lemma patch_same s :
  patch (overlayStyle s) (overlayPositionUpdates s) (_scroller s) (_overlayOpened s)
    (__emptyItems s) (dispatched s) s = s.
Proof. destruct s; reflexivity. Qed.

Lemma set_maxHeight_same sc : Scroller.set_maxHeight (Scroller.maxHeight sc) sc = sc.
Proof. destruct sc; reflexivity. Qed.

Lemma bind_run {A B} (m : M A) (k : A -> M B) s a s1 :
  m s = Ok (a, s1) -> bind m k s = k a s1.
Proof. unfold bind. now intros ->. Qed.

(** [_setOverlayWidth] returns, and writes the overlay's style and position
    only. *)
Lemma _setOverlayWidth_frame s :
  exists st n,
    _setOverlayWidth s
    = Ok (tt, patch st n (_scroller s) (_overlayOpened s) (__emptyItems s) (dispatched s) s).
Proof.
  unfold _setOverlayWidth. msimpl.
  destruct (positionTarget s) as [t|].
  - destruct (String.eqb _ ""); destruct s; pnorm; do 2 eexists; reflexivity.
  - exists (overlayStyle s), (overlayPositionUpdates s).
    now rewrite patch_same.
Qed.

Lemma _openedChanged_run opened wasOpened s sc :
  _scroller s = Some sc ->
  exists st n h,
    _openedChanged opened wasOpened s
    = Ok (tt, patch st n (Some (Scroller.set_maxHeight h sc)) (_overlayOpened s)
                (__emptyItems s)
                (dispatched s ++ (if opened then [openedEvent]
                                  else if wasOpened && negb (__emptyItems s)
                                       then [closedEvent] else []))
                s).
Proof.
  intros Hsc. unfold _openedChanged. destruct opened.
  - destruct (_setOverlayWidth_frame s) as (st & n & E).
    rewrite (bind_run _ _ _ _ _ E). msimpl. pnorm. rewrite Hsc.
    unfold dispatchEvent. msimpl. pnorm. eexists st, n, _. reflexivity.
  - msimpl. exists (overlayStyle s), (overlayPositionUpdates s), (Scroller.maxHeight sc).
    rewrite set_maxHeight_same, <- Hsc.
    destruct (wasOpened && negb (__emptyItems s)).
    + unfold dispatchEvent. msimpl. destruct s; reflexivity.
    + rewrite app_nil_r. now rewrite patch_same.
Qed.

Lemma set__overlayOpened_run v s sc :
  _scroller s = Some sc ->
  exists st n h,
    set__overlayOpened v s
    = Ok (tt, patch st n (Some (Scroller.set_maxHeight h sc)) v (__emptyItems s)
                (dispatched s ++ overlay_events (_overlayOpened s) v (__emptyItems s)) s).
Proof.
  intros Hsc. unfold set__overlayOpened, overlay_events. msimpl.
  destruct (Bool.eqb v (_overlayOpened s)) eqn:E.
  - apply Bool.eqb_prop in E. subst v.
    exists (overlayStyle s), (overlayPositionUpdates s), (Scroller.maxHeight sc).
    rewrite set_maxHeight_same, app_nil_r, <- Hsc. now rewrite patch_same.
  - destruct (_openedChanged_run v (_overlayOpened s) (upd__overlayOpened v s) sc Hsc)
      as (st & n & h & R).
    rewrite R. pnorm. exists st, n, h. destruct s; reflexivity.
Qed.

Lemma _openedOrItemsChanged_run opened items loading s sc :
  _scroller s = Some sc ->
  exists st n h,
    _openedOrItemsChanged opened items loading s
    = Ok (tt, patch st n (Some (Scroller.set_maxHeight h sc))
                (opened && (loading || hasItems items)) false
                (dispatched s
                 ++ overlay_events (_overlayOpened s) (opened && (loading || hasItems items))
                      (negb (hasItems items) || __emptyItems s)) s).
Proof.
  intros Hsc. unfold _openedOrItemsChanged.
  destruct (hasItems items) eqn:Hi; cbn [negb orb]; msimpl.
  - destruct (set__overlayOpened_run (opened && (loading || true)) s sc Hsc)
      as (st & n & h & R).
    rewrite R. exists st, n, h. reflexivity.
  - destruct (set__overlayOpened_run (opened && (loading || false))
                (upd___emptyItems true s) sc Hsc) as (st & n & h & R).
    rewrite R. exists st, n, h. destruct s; reflexivity.
Qed.

Ltac obs_unfold := unfold observed, patch; psimpl.

Lemma observe___updateScroller_run s sc :
  _scroller s = Some sc ->
  observe___updateScroller s
  = Ok (tt, upd__scroller
              (Some (Scroller.setProperties (if opened s then _items s else Some [])
                       (opened s) (loading s) (_selectedItem s) (_itemIdPath s)
                       (_focusedIndex s) (renderer s) (theme s) sc)) s).
Proof.
  intros Hsc. unfold observe___updateScroller, __updateScroller. msimpl.
  now rewrite Hsc.
Qed.

(** Both observers of the inputs return when the scroller is there. *)
Lemma observers_run s sc :
  _scroller s = Some sc ->
  exists st n h,
    (observe__openedOrItemsChanged ;; observe___updateScroller) s
    = Ok (tt, observed st n h sc s).
Proof.
  intros Hsc.
  destruct (_openedOrItemsChanged_run (opened s) (_items s) (loading s) s sc Hsc)
    as (st & n & h & R).
  exists st, n, h.
  unfold observe__openedOrItemsChanged at 1.
  unfold bind at 1. unfold bind at 1. unfold read at 1. cbv beta iota. unfold id at 1 2 3.
  rewrite R.
  erewrite observe___updateScroller_run by reflexivity.
  reflexivity.
Qed.

Lemma set_opened_run v s sc :
  _scroller s = Some sc ->
  exists st n h,
    set_opened v s
    = Ok (tt, if Bool.eqb v (opened s) then s else observed st n h sc (upd_opened v s)).
Proof.
  intros Hsc. unfold set_opened.
  unfold bind at 1, read at 1.
  destruct (Bool.eqb v (opened s)).
  - exists ∅, 0%nat, "". reflexivity.
  - unfold bind at 1, modify at 1.
    apply (observers_run (upd_opened v s) sc Hsc).
Qed.

Lemma set_loading_run v s sc :
  _scroller s = Some sc ->
  exists st n h,
    set_loading v s
    = Ok (tt, if Bool.eqb v (loading s) then s else observed st n h sc (upd_loading v s)).
Proof.
  intros Hsc. unfold set_loading.
  unfold bind at 1, read at 1.
  destruct (Bool.eqb v (loading s)).
  - exists ∅, 0%nat, "". reflexivity.
  - unfold bind at 1, modify at 1.
    apply (observers_run (upd_loading v s) sc Hsc).
Qed.

Lemma set__items_run v s sc :
  _scroller s = Some sc ->
  exists st n h, set__items v s = Ok (tt, observed st n h sc (upd__items v s)).
Proof.
  intros Hsc. unfold set__items, bind at 1, modify at 1.
  apply (observers_run (upd__items v s) sc Hsc).
Qed.

(** The overlay equation and the scroller's items, after the observers. *)
Lemma Inv_observed st n h sc s :
  Scroller.listeners sc = ready_listeners -> Inv (observed st n h sc s).
Proof.
  intros Hl. split.
  - eexists. obs_unfold. split; [reflexivity|]. split; [exact Hl | reflexivity].
  - reflexivity.
  - reflexivity.
Qed.

Lemma Inv_frame s s' sc' :
  Inv s ->
  opened s' = opened s -> loading s' = loading s -> _items s' = _items s ->
  _overlayOpened s' = _overlayOpened s -> __emptyItems s' = __emptyItems s ->
  _scroller s' = Some sc' -> Scroller.listeners sc' = ready_listeners ->
  Scroller.items sc' = (if opened s then _items s else Some []) ->
  Inv s'.
Proof.
  intros [_ Ho He] E1 E2 E3 E4 E5 E6 E7 E8. split.
  - exists sc'. rewrite E1, E3. auto.
  - now rewrite E1, E2, E3, E4.
  - now rewrite E5.
Qed.

(** The listeners of a type other than the event's are skipped; each of the
    others forwards the event. *)
Lemma notify_run ls e s :
  notify ls e s
  = Ok (tt, upd_dispatched
              (dispatched s
               ++ map (fun _ => forwarded e) (filter (fun l => fst l = type e) ls)) s).
Proof.
  revert s. induction ls as [|[ty l] ls IH]; intros s.
  - cbn. msimpl. rewrite app_nil_r. destruct s; reflexivity.
  - cbn [notify]. unfold bind at 1. rewrite filter_cons. cbn [fst].
    destruct (String.eqb_spec ty (type e)) as [->|Hne].
    + destruct l. unfold invoke, _forwardScrollerEvent, dispatchEvent, modify.
      rewrite IH. pnorm. rewrite decide_True by reflexivity.
      cbn [map]. rewrite <- app_assoc. reflexivity.
    + unfold ret. rewrite IH. rewrite decide_False by assumption. reflexivity.
Qed.

Lemma scrollerDispatch_ready e s sc :
  _scroller s = Some sc -> Scroller.listeners sc = ready_listeners ->
  scrollerDispatch e s
  = Ok (tt, upd_dispatched (dispatched s ++ (if relayed (type e) then [forwarded e] else [])) s).
Proof.
  intros Hsc Hl. unfold scrollerDispatch, bind, read. rewrite Hsc, notify_run, Hl.
  unfold ready_listeners, relayed. rewrite !filter_cons, filter_nil. cbn [fst].
  destruct (String.eqb_spec (type e) "selection-changed") as [E|N1].
  - rewrite E. reflexivity.
  - rewrite decide_False by congruence.
    destruct (String.eqb_spec (type e) "index-requested") as [E|N2].
    + rewrite E. reflexivity.
    + rewrite decide_False by congruence. reflexivity.
Qed.

Lemma ready_run touch computed :
  exec ready (constructed touch computed) = Ok (readied touch computed).
Proof. reflexivity. Qed.

Lemma Inv_readied touch computed : Inv (readied touch computed).
Proof.
  split.
  - eexists. split; [reflexivity|]. split; reflexivity.
  - reflexivity.
  - reflexivity.
Qed.

Lemma exec_ok {A} (m : M A) s a s1 : m s = Ok (a, s1) -> exec m s = Ok s1.
Proof. unfold exec. now intros ->. Qed.

Lemma exec_inv {A} (m : M A) s s' : exec m s = Ok s' -> exists a, m s = Ok (a, s').
Proof.
  unfold exec. destruct (m s) as [[a s1]|]; [|discriminate].
  intros [= ->]. now exists a.
Qed.

Lemma _scrollIntoView_run i s sc :
  _scroller s = Some sc ->
  exists sc', _scrollIntoView i s = Ok (tt, upd__scroller (Some sc') s)
              /\ Scroller.listeners sc' = Scroller.listeners sc
              /\ Scroller.items sc' = Scroller.items sc.
Proof.
  intros Hsc. unfold _scrollIntoView, bind, read, lift, modify. rewrite Hsc.
  unfold Scroller.scrollIntoView, Scroller.scrollToIndex.
  destruct (Scroller.clamp (Scroller.size sc) i); eexists; split; try reflexivity; auto.
Qed.

(** Every action keeps the invariant. *)
Lemma Inv_perform a s s' : Inv s -> exec (perform a) s = Ok s' -> Inv s'.
Proof.
  intros I H. pose proof I as [(sc & Hsc & Hl & Hi) Ho He].
  destruct a; cbn [perform] in H.
  - destruct (set_opened_run v s sc Hsc) as (st & n & h & R).
    rewrite (exec_ok _ _ _ _ R) in H. injection H as <-.
    destruct (Bool.eqb v (opened s)); [assumption | now apply Inv_observed].
  - destruct (set_loading_run v s sc Hsc) as (st & n & h & R).
    rewrite (exec_ok _ _ _ _ R) in H. injection H as <-.
    destruct (Bool.eqb v (loading s)); [assumption | now apply Inv_observed].
  - destruct (set__items_run v s sc Hsc) as (st & n & h & R).
    rewrite (exec_ok _ _ _ _ R) in H. injection H as <-. now apply Inv_observed.
  - (* SetFocusedIndex *)
    unfold set__focusedIndex, exec, bind at 1, read at 1 in H.
    destruct (v =? _focusedIndex s).
    + injection H as <-. assumption.
    + unfold bind at 1, modify at 1, bind at 1 in H.
      destruct (_getFocusedItem v (upd__focusedIndex v s)) as [[item s1]|] eqn:G;
        [|discriminate].
      assert (s1 = upd__focusedIndex v s) as ->.
      { unfold _getFocusedItem in G. destruct (0 <=? v); msimpl; psimpl.
        - destruct (_items s); [|discriminate]. now injection G as _ <-.
        - now injection G as _ <-. }
      unfold bind at 1, modify at 1 in H.
      erewrite observe___updateScroller_run in H by (psimpl; exact Hsc).
      injection H as <-. eapply Inv_frame; eauto; reflexivity.
  - unfold set__selectedItem, exec, bind, modify in H.
    erewrite observe___updateScroller_run in H by (psimpl; exact Hsc).
    injection H as <-. eapply Inv_frame; eauto; reflexivity.
  - unfold set__itemIdPath, exec, bind, modify in H.
    erewrite observe___updateScroller_run in H by (psimpl; exact Hsc).
    injection H as <-. eapply Inv_frame; eauto; reflexivity.
  - unfold set_renderer, exec, bind, modify in H.
    erewrite observe___updateScroller_run in H by (psimpl; exact Hsc).
    injection H as <-. eapply Inv_frame; eauto; reflexivity.
  - unfold set_theme, exec, bind, modify in H.
    erewrite observe___updateScroller_run in H by (psimpl; exact Hsc).
    injection H as <-. eapply Inv_frame; eauto; reflexivity.
  - (* SetPositionTarget *)
    unfold set_positionTarget, exec, bind, modify, _positionTargetChanged in H.
    destruct v.
    + destruct (_setOverlayWidth_frame (upd_positionTarget (Some p) s)) as (st & n & R).
      rewrite R in H. injection H as <-. eapply Inv_frame; eauto; reflexivity.
    + injection H as <-. eapply Inv_frame; eauto; reflexivity.
  - injection H as <-. eapply Inv_frame; eauto; reflexivity.
  - (* NotifyResize *)
    unfold notifyResize, super_notifyResize, dispatchEvent, exec, bind, read, modify, id in H.
    psimpl.
    destruct (bool_decide (is_Some (positionTarget s)) && opened s).
    + destruct (_setOverlayWidth_frame (upd_dispatched (dispatched s ++ [ironResizeEvent]) s))
        as (st & n & R).
      rewrite R in H. injection H as <-. eapply Inv_frame; eauto; reflexivity.
    + injection H as <-. eapply Inv_frame; eauto; reflexivity.
  - (* AdjustScrollPosition *)
    unfold adjustScrollPosition, exec, bind at 1, read at 1, id in H.
    destruct (opened s && bool_decide (is_Some (_items s))).
    + destruct (_scrollIntoView_run (_focusedIndex s) s sc Hsc) as (sc' & R & E1 & E2).
      rewrite R in H. injection H as <-.
      eapply Inv_frame; eauto; try reflexivity; congruence.
    + injection H as <-. assumption.
  - unfold exec in H. rewrite (scrollerDispatch_ready e s sc Hsc Hl) in H.
    injection H as <-. eapply Inv_frame; eauto; reflexivity.
  - injection H as <-. eapply Inv_frame; eauto; reflexivity.
Qed.

Lemma reachable_Inv s : reachable s -> Inv s.
Proof.
  induction 1 as [touch computed s H | a s s' _ IH H].
  - rewrite ready_run in H. injection H as <-. apply Inv_readied.
  - exact (Inv_perform a s s' IH H).
Qed.

Lemma performAll_reachable acts : forall s s',
  reachable s -> exec (performAll acts) s = Ok s' -> reachable s'.
Proof.
  induction acts as [|a acts IH]; intros s s' R H.
  - injection H as <-. assumption.
  - cbn [performAll] in H. unfold exec, bind in H.
    destruct (perform a s) as [[[] s1]|] eqn:E; [|discriminate].
    apply (IH s1 s'); [|exact H].
    apply (reachable_perform a s s1 R). unfold exec. now rewrite E.
Qed.

Lemma after_reachable acts :
  is_ok (exec (performAll acts) (readied false ∅)) = true -> reachable (after acts).
Proof.
  unfold after. destruct (exec (performAll acts) (readied false ∅)) as [s|] eqn:E;
    [intros _|discriminate].
  apply (performAll_reachable acts (readied false ∅) s); [|exact E].
  apply (reachable_ready false ∅). apply ready_run.
Qed.

(** A property change of [opened], [loading] or [_items] returns. *)
Lemma input_returns a s :
  reachable s -> is_input a = true -> exists s', exec (perform a) s = Ok s'.
Proof.
  intros R Ha. destruct (reachable_Inv s R) as [(sc & Hsc & _) _ _].
  destruct a; try discriminate; cbn [perform].
  - destruct (set_opened_run v s sc Hsc) as (st & n & h & E).
    eexists. exact (exec_ok _ _ _ _ E).
  - destruct (set_loading_run v s sc Hsc) as (st & n & h & E).
    eexists. exact (exec_ok _ _ _ _ E).
  - destruct (set__items_run v s sc Hsc) as (st & n & h & E).
    eexists. exact (exec_ok _ _ _ _ E).
Qed.

Lemma overlay_equation s :
  reachable s ->
  _overlayOpened s = opened s && (loading s || hasItems (_items s)).
Proof. intros R. apply (reachable_Inv s R). Qed.

Lemma hasItems_length items :
  hasItems items = true <-> exists l, items = Some l /\ (0 < length l)%nat.
Proof.
  split.
  - destruct items as [[|x l]|]; try discriminate. intros _. eexists. split; [reflexivity|cbn; lia].
  - intros (l & -> & Hl). destruct l; [cbn in Hl; lia | reflexivity].
Qed.

(** ** The outcome of each action *)

Lemma _setOverlayWidth_shape s :
  exists st n,
    _setOverlayWidth s = Ok (tt, upd_overlayPositionUpdates n (upd_overlayStyle st s)).
Proof.
  unfold _setOverlayWidth, bind, read, modify.
  destruct (positionTarget s) as [t|].
  - destruct (String.eqb _ ""); do 2 eexists; reflexivity.
  - exists (overlayStyle s), (overlayPositionUpdates s). unfold ret. destruct s; reflexivity.
Qed.

Lemma perform_outcome a s s' sc :
  _scroller s = Some sc -> Scroller.listeners sc = ready_listeners ->
  exec (perform a) s = Ok s' -> outcome s sc a s'.
Proof.
  intros Hsc Hl H. destruct a; cbn [perform] in H.
  - destruct (set_opened_run v s sc Hsc) as (st & n & h & R).
    rewrite (exec_ok _ _ _ _ R) in H. injection H as <-.
    destruct (Bool.eqb v (opened s)); constructor; reflexivity.
  - destruct (set_loading_run v s sc Hsc) as (st & n & h & R).
    rewrite (exec_ok _ _ _ _ R) in H. injection H as <-.
    destruct (Bool.eqb v (loading s)); constructor; reflexivity.
  - destruct (set__items_run v s sc Hsc) as (st & n & h & R).
    rewrite (exec_ok _ _ _ _ R) in H. injection H as <-. constructor.
  - unfold set__focusedIndex, exec, bind at 1, read at 1 in H.
    destruct (v =? _focusedIndex s).
    + injection H as <-. constructor. reflexivity.
    + unfold bind at 1, modify at 1, bind at 1 in H.
      destruct (_getFocusedItem v (upd__focusedIndex v s)) as [[item s1]|] eqn:G;
        [|discriminate].
      assert (s1 = upd__focusedIndex v s) as ->.
      { unfold _getFocusedItem in G. destruct (0 <=? v); msimpl; psimpl.
        - destruct (_items s); [|discriminate]. now injection G as _ <-.
        - now injection G as _ <-. }
      unfold bind at 1, modify at 1 in H.
      erewrite observe___updateScroller_run in H by (psimpl; exact Hsc).
      injection H as <-. apply out_focusedIndex.
  - unfold set__selectedItem, exec, bind, modify in H.
    erewrite observe___updateScroller_run in H by (psimpl; exact Hsc).
    injection H as <-. apply out_selectedItem.
  - unfold set__itemIdPath, exec, bind, modify in H.
    erewrite observe___updateScroller_run in H by (psimpl; exact Hsc).
    injection H as <-. apply out_itemIdPath.
  - unfold set_renderer, exec, bind, modify in H.
    erewrite observe___updateScroller_run in H by (psimpl; exact Hsc).
    injection H as <-. apply out_renderer.
  - unfold set_theme, exec, bind, modify in H.
    erewrite observe___updateScroller_run in H by (psimpl; exact Hsc).
    injection H as <-. apply out_theme.
  - unfold set_positionTarget, exec, bind, modify, _positionTargetChanged in H.
    destruct v.
    + destruct (_setOverlayWidth_shape (upd_positionTarget (Some p) s)) as (st & n & R).
      rewrite R in H. injection H as <-. constructor.
    + injection H as <-.
      replace (upd_positionTarget None s)
        with (upd_overlayPositionUpdates (overlayPositionUpdates s)
                (upd_overlayStyle (overlayStyle s) (upd_positionTarget None s)))
        by (destruct s; reflexivity).
      constructor.
  - injection H as <-. constructor.
  - unfold notifyResize, super_notifyResize, dispatchEvent, exec, bind, read, modify, id in H.
    psimpl.
    destruct (bool_decide (is_Some (positionTarget s)) && opened s).
    + destruct (_setOverlayWidth_shape (upd_dispatched (dispatched s ++ [ironResizeEvent]) s))
        as (st & n & R).
      rewrite R in H. injection H as <-. constructor.
    + injection H as <-.
      replace (upd_dispatched (dispatched s ++ [ironResizeEvent]) s)
        with (upd_overlayPositionUpdates (overlayPositionUpdates s)
                (upd_overlayStyle (overlayStyle s)
                   (upd_dispatched (dispatched s ++ [ironResizeEvent]) s)))
        by (destruct s; reflexivity).
      constructor.
  - unfold adjustScrollPosition, exec, bind at 1, read at 1, id in H.
    destruct (opened s && bool_decide (is_Some (_items s))).
    + unfold _scrollIntoView, bind, read, lift, modify in H. rewrite Hsc in H.
      unfold Scroller.scrollIntoView, Scroller.scrollToIndex in H.
      destruct (Scroller.clamp _ _).
      * injection H as <-. constructor.
      * injection H as <-.
        replace (upd__scroller (Some sc) s) with s
          by (rewrite <- Hsc; destruct s; reflexivity).
        constructor. reflexivity.
    + injection H as <-. constructor. reflexivity.
  - unfold exec in H. rewrite (scrollerDispatch_ready e s sc Hsc Hl) in H.
    injection H as <-. constructor.
  - injection H as <-. constructor.
Qed.

(** Through its whole life the dropdown keeps the scroller [ready] gave
    it, with its two listeners. *)
Lemma attainable_scroller s :
  attainable s ->
  exists sc, _scroller s = Some sc /\ Scroller.listeners sc = ready_listeners.
Proof.
  induction 1 as [touch computed s H | t s s' _ (sc & Hsc & Hl) H].
  - rewrite ready_run in H. injection H as <-. eexists. split; reflexivity.
  - destruct t; cbn [step] in H.
    + destruct (perform_outcome a s s' sc Hsc Hl H); eexists;
        (split; [psimpl; first [exact Hsc | reflexivity] | exact Hl]).
    + unfold disconnectedCallback in H.
      destruct (set__overlayOpened_run false s sc Hsc) as (st & n & h & E).
      rewrite (exec_ok _ _ _ _ E) in H. injection H as <-.
      eexists. split; [reflexivity | exact Hl].
    + destruct (set__overlayOpened_run v s sc Hsc) as (st & n & h & E).
      rewrite (exec_ok _ _ _ _ E) in H. injection H as <-.
      eexists. split; [reflexivity | exact Hl].
Qed.

Lemma stepAll_attainable ts : forall s s',
  attainable s -> exec (stepAll ts) s = Ok s' -> attainable s'.
Proof.
  induction ts as [|t ts IH]; intros s s' R H.
  - injection H as <-. assumption.
  - cbn [stepAll] in H. unfold exec, bind in H.
    destruct (step t s) as [[[] s1]|] eqn:E; [|discriminate].
    apply (IH s1 s'); [|exact H].
    apply (attainable_step t s s1 R). unfold exec. now rewrite E.
Qed.

Lemma after_steps_attainable ts :
  is_ok (exec (stepAll ts) (readied false ∅)) = true -> attainable (after_steps ts).
Proof.
  unfold after_steps. destruct (exec (stepAll ts) (readied false ∅)) as [s|] eqn:E;
    [intros _|discriminate].
  apply (stepAll_attainable ts (readied false ∅) s); [|exact E].
  apply (attainable_ready false ∅). apply ready_run.
Qed.

(** An assignment that changes [opened], [loading] or [_items] returns with
    the overlay equation established, whatever [_overlayOpened] was. *)
Lemma changed_input_equation a s sc :
  _scroller s = Some sc -> changes_input a s = true ->
  exists s', exec (perform a) s = Ok s'
             /\ _overlayOpened s' = opened s' && (loading s' || hasItems (_items s')).
Proof.
  intros Hsc Ha. destruct a; try discriminate Ha; cbn [perform changes_input] in *.
  - destruct (set_opened_run v s sc Hsc) as (st & n & h & E).
    apply negb_true_iff in Ha. rewrite Ha in E.
    eexists. split; [exact (exec_ok _ _ _ _ E) | reflexivity].
  - destruct (set_loading_run v s sc Hsc) as (st & n & h & E).
    apply negb_true_iff in Ha. rewrite Ha in E.
    eexists. split; [exact (exec_ok _ _ _ _ E) | reflexivity].
  - destruct (set__items_run v s sc Hsc) as (st & n & h & E).
    eexists. split; [exact (exec_ok _ _ _ _ E) | reflexivity].
Qed.

(** C1, as the code has it. In every state of a connected dropdown whose
    overlay is driven by the dropdown alone, [_overlayOpened] is true
    exactly when [opened] is true and [loading] is true or [_items] is a
    non-empty array, and the overlay shows under the same condition; an
    assignment of [opened], [loading] or [_items] returns with the equation
    already re-established: the observer runs inside the assignment.

    Over the whole life of the dropdown the equation is not an invariant:
    once [ready] has installed the scroller, detaching the dropdown sets
    [_overlayOpened] to false, and a change of the overlay's own [opened]
    sets it to the overlay's value, while [opened], [loading] and [_items]
    stay as they are. From any such state the next assignment that changes
    one of the three re-establishes the equation. *)
Theorem overlay_opened_iff :
  (forall s, reachable s ->
     (_overlayOpened s = true
      <-> opened s = true /\ (loading s = true \/ hasItems (_items s) = true))
     /\ overlayVisible s = opened s && (loading s || hasItems (_items s))
     /\ (forall a, is_input a = true ->
           exists s', exec (perform a) s = Ok s'
                      /\ _overlayOpened s'
                         = opened s' && (loading s' || hasItems (_items s'))))
  /\ (forall s, attainable s -> is_Some (_scroller s))
  /\ (forall s a, is_Some (_scroller s) -> changes_input a s = true ->
        exists s', exec (perform a) s = Ok s'
                   /\ (_overlayOpened s' = true
                       <-> opened s' = true
                           /\ (loading s' = true \/ hasItems (_items s') = true)))
  /\ (forall s, is_Some (_scroller s) ->
        exists s', exec disconnectedCallback s = Ok s'
                   /\ _overlayOpened s' = false
                   /\ opened s' = opened s /\ loading s' = loading s
                   /\ _items s' = _items s)
  /\ (forall s v, is_Some (_scroller s) ->
        exists s', exec (set__overlayOpened v) s = Ok s'
                   /\ _overlayOpened s' = v
                   /\ opened s' = opened s /\ loading s' = loading s
                   /\ _items s' = _items s).
Proof.
  split; [|split; [|split; [|split]]].
  - intros s R. pose proof (overlay_equation s R) as E. split; [|split].
    + rewrite E, andb_true_iff, orb_true_iff. reflexivity.
    + unfold overlayVisible, _isOverlayHidden. rewrite E.
      destruct (opened s), (loading s), (hasItems (_items s)); reflexivity.
    + intros a Ha. destruct (input_returns a s R Ha) as (s' & H).
      exists s'. split; [exact H|].
      apply overlay_equation. exact (reachable_perform a s s' R H).
  - intros s R. destruct (attainable_scroller s R) as (sc & -> & _). now exists sc.
  - intros s a [sc Hsc] Ha.
    destruct (changed_input_equation a s sc Hsc Ha) as (s' & H & E).
    exists s'. split; [exact H|].
    rewrite E, andb_true_iff, orb_true_iff. reflexivity.
  - intros s [sc Hsc].
    destruct (set__overlayOpened_run false s sc Hsc) as (st & n & h & E).
    eexists. split; [exact (exec_ok _ _ _ _ E) | repeat split].
  - intros s v [sc Hsc].
    destruct (set__overlayOpened_run v s sc Hsc) as (st & n & h & E).
    eexists. split; [exact (exec_ok _ _ _ _ E) | repeat split].
Qed.

Lemma overlay_opened_iff_witness :
  (_overlayOpened (after demo_open) = true
   <-> opened (after demo_open) = true
       /\ (loading (after demo_open) = true \/ hasItems (_items (after demo_open)) = true))
  /\ (exists s', exec (perform (SetOpened false)) (after_steps demo_detached) = Ok s'
                 /\ (_overlayOpened s' = true
                     <-> opened s' = true
                         /\ (loading s' = true \/ hasItems (_items s') = true))).
Proof.
  destruct overlay_opened_iff as (Hconnected & Hscroller & Hchange & _). split.
  - apply (Hconnected (after demo_open)).
    apply after_reachable. vm_compute. reflexivity.
  - apply (Hchange (after_steps demo_detached) (SetOpened false)).
    + apply Hscroller. apply after_steps_attainable. vm_compute. reflexivity.
    + vm_compute. reflexivity.
Defined.

(** C1, as stated, fails once the dropdown is detached: the dropdown that
    was given an item, opened and then detached has [opened] true and an
    item, and its overlay is closed; assigning [opened] the value it has
    runs no observer and leaves the overlay closed. *)
Lemma overlay_equation_fails_detached :
  attainable (after_steps demo_detached)
  /\ opened (after_steps demo_detached) = true
  /\ hasItems (_items (after_steps demo_detached)) = true
  /\ _overlayOpened (after_steps demo_detached) = false
  /\ exec (perform (SetOpened true)) (after_steps demo_detached)
     = Ok (after_steps demo_detached)
  /\ ~ (_overlayOpened (after_steps demo_detached) = true
        <-> opened (after_steps demo_detached) = true
            /\ (loading (after_steps demo_detached) = true
                \/ hasItems (_items (after_steps demo_detached)) = true)).
Proof.
  split; [apply after_steps_attainable; vm_compute; reflexivity|].
  split; [vm_compute; reflexivity|]. split; [vm_compute; reflexivity|].
  split; [vm_compute; reflexivity|]. split; [vm_compute; reflexivity|].
  intros [_ H].
  assert (_overlayOpened (after_steps demo_detached) = true) as C.
  { apply H. split; [|right]; vm_compute; reflexivity. }
  vm_compute in C. discriminate C.
Qed.




(** ** The relay of scroller events *)

Lemma scrollerDispatchAll_ready es : forall s sc,
  _scroller s = Some sc -> Scroller.listeners sc = ready_listeners ->
  Forall (fun e => relayed (type e) = true) es ->
  scrollerDispatchAll es s
  = Ok (tt, upd_dispatched (dispatched s ++ map forwarded es) s).
Proof.
  induction es as [|e es IH]; intros s sc Hsc Hl Hes.
  - cbn. unfold ret. rewrite app_nil_r. destruct s; reflexivity.
  - inversion Hes as [|? ? He Hes']; subst.
    cbn [scrollerDispatchAll]. unfold bind.
    rewrite (scrollerDispatch_ready e s sc Hsc Hl), He.
    rewrite (IH _ sc); [|exact Hsc|exact Hl|exact Hes'].
    psimpl. cbn [map]. rewrite <- app_assoc. reflexivity.
Qed.

(** C5. On a connected dropdown, the [selection-changed] and
    [index-requested] events of the scroller are each answered by one event
    dispatched on the dropdown, of the same type and with the same detail,
    in the order the scroller dispatched them; nothing else is dispatched. *)
Theorem scroller_events_relayed s es :
  reachable s ->
  Forall (fun e => type e = "selection-changed" \/ type e = "index-requested") es ->
  exists s',
    exec (scrollerDispatchAll es) s = Ok s'
    /\ dispatched s' = (dispatched s ++ map forwarded es)%list
    /\ Forall2 (fun e e' => type e' = type e /\ detail e' = detail e)
         es (map forwarded es).
Proof.
  intros R Hes. destruct (reachable_Inv s R) as [(sc & Hsc & Hl & _) _ _].
  assert (Forall (fun e => relayed (type e) = true) es) as Hes'.
  { eapply Forall_impl; [exact Hes|].
    intros e [E|E]; unfold relayed; rewrite E; reflexivity. }
  eexists. split.
  - apply (exec_ok _ _ _ _ (scrollerDispatchAll_ready es s sc Hsc Hl Hes')).
  - split; [reflexivity|].
    clear. induction es as [|e es IH]; cbn [map]; constructor; auto.
Qed.

Lemma scroller_events_relayed_witness :
  exists s',
    exec (scrollerDispatchAll demo_events) (after demo_open) = Ok s'
    /\ dispatched s' = (dispatched (after demo_open) ++ map forwarded demo_events)%list
    /\ Forall2 (fun e e' => type e' = type e /\ detail e' = detail e)
         demo_events (map forwarded demo_events).
Proof.
  apply (scroller_events_relayed (after demo_open) demo_events).
  - apply after_reachable. vm_compute. reflexivity.
  - constructor; [left; reflexivity|].
    constructor; [right; reflexivity|]. constructor.
Defined.

(** ** Absent collaborators *)

(** C7. Without a scroller [_scrollIntoView] returns and leaves the element
    as it was, and so does [_setOverlayWidth] without a position target. *)
Theorem absent_collaborator_noop s :
  (forall index, _scroller s = None -> _scrollIntoView index s = Ok (tt, s))
  /\ (positionTarget s = None -> _setOverlayWidth s = Ok (tt, s)).
Proof.
  split.
  - intros index H. unfold _scrollIntoView, bind, read. now rewrite H.
  - intros H. unfold _setOverlayWidth, bind, read. now rewrite H.
Qed.

Lemma absent_collaborator_noop_witness :
  _scrollIntoView 3 (constructed false ∅) = Ok (tt, constructed false ∅)
  /\ _setOverlayWidth (constructed false ∅) = Ok (tt, constructed false ∅).
Proof.
  split.
  - apply (absent_collaborator_noop (constructed false ∅)). reflexivity.
  - apply (absent_collaborator_noop (constructed false ∅)). reflexivity.
Defined.

(** ** What the scroller is given *)

(** C9. Each update [__updateScroller] pushes while [opened] is false sets
    the scroller's items to the empty array, whatever the dropdown's item
    collection is; the collection itself is pushed only while [opened] is
    true. On a connected dropdown the scroller therefore holds the item
    collection when [opened] is true and the empty array otherwise. *)
Theorem scroller_items_when_closed scroller items opened loading selectedItem
    itemIdPath focusedIndex renderer theme s :
  exists scroller',
    exec (__updateScroller (Some scroller) items opened loading selectedItem itemIdPath
            focusedIndex renderer theme) s
    = Ok (upd__scroller (Some scroller') s)
    /\ (opened = false -> Scroller.items scroller' = Some [])
    /\ (opened = true -> Scroller.items scroller' = items)
    /\ (Scroller.items scroller' <> Some [] -> opened = true)
    /\ (reachable s ->
        exists sc, _scroller s = Some sc
                   /\ Scroller.items sc = if Dropdown.opened s then _items s else Some []).
Proof.
  eexists. split; [reflexivity|]. cbn [Scroller.items Scroller.setProperties].
  repeat split.
  - now intros ->.
  - now intros ->.
  - destruct opened; [reflexivity | intros H; now elim H].
  - intros R. destruct (reachable_Inv s R) as [(sc & Hsc & _ & Hi) _ _]. eauto.
Qed.

Lemma scroller_items_when_closed_witness :
  (exists sc', exec (__updateScroller (Some Scroller.create) (Some [Str "Item 0"]) false
                       false Undefined None (-1) None None) (after demo_open)
               = Ok (upd__scroller (Some sc') (after demo_open))
               /\ Scroller.items sc' = Some [])
  /\ (exists sc, _scroller (after demo_open) = Some sc
                 /\ Scroller.items sc
                    = if Dropdown.opened (after demo_open) then _items (after demo_open)
                      else Some []).
Proof.
  destruct (scroller_items_when_closed Scroller.create (Some [Str "Item 0"]) false false
              Undefined None (-1) None None (after demo_open))
    as (sc' & E & Hclosed & _ & _ & Hconnected).
  split.
  - exists sc'. split; [exact E|]. apply Hclosed. reflexivity.
  - apply Hconnected. apply after_reachable. vm_compute. reflexivity.
Defined.

(** ** The width of the overlay *)

Lemma length_append a b :
  String.length (a +:+ b) = (String.length a + String.length b)%nat.
Proof. induction a as [|c a IH]; [reflexivity | simpl; f_equal; exact IH]. Qed.

Lemma width_properties_differ s : widthProperty s <> defaultWidthProperty s.
Proof.
  unfold widthProperty, defaultWidthProperty. intros E.
  apply (f_equal String.length) in E.
  rewrite !length_append in E. cbn in E. lia.
Qed.

Lemma _setOverlayWidth_run s target :
  positionTarget s = Some target ->
  _setOverlayWidth s
  = Ok (tt,
        upd_overlayPositionUpdates (S (overlayPositionUpdates s))
          (upd_overlayStyle
             (let style := <[defaultWidthProperty s := pretty (clientWidth target) +:+ "px"]>
                             (overlayStyle s) in
              let customWidth := getPropertyValue (hostStyle s) (widthProperty s) in
              if String.eqb customWidth "" then delete (widthProperty s) style
              else <[widthProperty s := customWidth]> style)
             s)).
Proof.
  intros H. unfold _setOverlayWidth, bind, read, modify. rewrite H.
  unfold widthProperty, defaultWidthProperty.
  destruct (String.eqb _ ""); reflexivity.
Qed.

(** C4. With a position target, [_setOverlayWidth] returns; when the
    computed value of the host's width override is not empty, the overlay
    gets that value as its width override, and that is the width it takes;
    when it is empty, the override is removed from the overlay, whose width
    is then the client width of the position target, in pixels. *)
Theorem overlay_width_source s target :
  positionTarget s = Some target ->
  let customWidth := getPropertyValue (hostStyle s) (widthProperty s) in
  exists s',
    exec _setOverlayWidth s = Ok s'
    /\ (customWidth <> "" ->
        overlayStyle s' !! widthProperty s' = Some customWidth
        /\ overlayWidth s' = Some customWidth)
    /\ (customWidth = "" ->
        overlayStyle s' !! widthProperty s' = None
        /\ overlayWidth s' = Some (pretty (clientWidth target) +:+ "px")).
Proof.
  intros H customWidth.
  pose proof (_setOverlayWidth_run s target H) as R.
  match type of R with _ = Ok (tt, ?x) => set (s' := x) in R end.
  exists s'. split; [exact (exec_ok _ _ _ _ R)|].
  assert (widthProperty s' = widthProperty s) as Hw by reflexivity.
  assert (overlayWidth s'
          = match overlayStyle s' !! widthProperty s with
            | Some w => Some w
            | None => overlayStyle s' !! defaultWidthProperty s
            end) as -> by reflexivity.
  rewrite Hw.
  assert (overlayStyle s'
          = let style := <[defaultWidthProperty s := pretty (clientWidth target) +:+ "px"]>
                           (overlayStyle s) in
            if String.eqb customWidth "" then delete (widthProperty s) style
            else <[widthProperty s := customWidth]> style) as -> by reflexivity.
  cbv zeta. split.
  - intros Hne. destruct (String.eqb_spec customWidth "") as [E|_]; [contradiction|].
    rewrite lookup_insert_eq. auto.
  - intros ->. cbn [String.eqb].
    rewrite lookup_delete_eq. split; [reflexivity|].
    rewrite lookup_delete_ne by apply width_properties_differ.
    now rewrite lookup_insert_eq.
Qed.

Lemma overlay_width_source_witness :
  exists s',
    exec _setOverlayWidth demo_anchored = Ok s'
    /\ (getPropertyValue (hostStyle demo_anchored) (widthProperty demo_anchored) <> "" ->
        overlayStyle s' !! widthProperty s'
        = Some (getPropertyValue (hostStyle demo_anchored) (widthProperty demo_anchored))
        /\ overlayWidth s'
           = Some (getPropertyValue (hostStyle demo_anchored) (widthProperty demo_anchored)))
    /\ (getPropertyValue (hostStyle demo_anchored) (widthProperty demo_anchored) = "" ->
        overlayStyle s' !! widthProperty s' = None
        /\ overlayWidth s' = Some (pretty (clientWidth {| clientWidth := 200 |}) +:+ "px")).
Proof.
  apply (overlay_width_source demo_anchored {| clientWidth := 200 |}).
  reflexivity.
Defined.

(** ** Scrolling to an index *)

Lemma clamp_spec N i j :
  Scroller.clamp N i = Some j ->
  0 <= j < N /\ (i < 0 -> j = 0) /\ (N <= i -> j = N - 1) /\ (0 <= i < N -> j = i)
  /\ (forall k, 0 <= k < N -> Z.abs (i - j) <= Z.abs (i - k)).
Proof.
  unfold Scroller.clamp. destruct (Z.leb_spec N 0); [discriminate|].
  intros [= <-]. repeat split; intros; lia.
Qed.

(** C3. Whatever the number N of items the scroller holds and whatever the
    index, scrolling to the index returns normally, through the test helper
    [scrollToIndex] as through [_scrollIntoView]; when the scroller holds
    items and the index is outside [0, N), the virtualizer scrolls to the
    valid index nearest to it: the first one for a negative index, the last
    one for an index of N or more. *)
Theorem scrollToIndex_clamps s sc i :
  _scroller s = Some sc ->
  let N := Scroller.size sc in
  0 <= N
  /\ (exists s', exec (scrollToIndex i) s = Ok s')
  /\ (exists s', exec (_scrollIntoView i) s = Ok s')
  /\ (0 < N -> ~ (0 <= i < N) ->
      exists sc' j,
        exec (scrollToIndex i) s = Ok (upd__scroller (Some sc') s)
        /\ Scroller.scrollTarget sc' = Some j
        /\ 0 <= j < N
        /\ (i < 0 -> j = 0) /\ (N <= i -> j = N - 1)
        /\ (forall k, 0 <= k < N -> Z.abs (i - j) <= Z.abs (i - k))).
Proof.
  intros Hsc N. split; [|split; [|split]].
  - unfold N, Scroller.size. destruct (Scroller.items sc); lia.
  - unfold exec, scrollToIndex, bind, read, lift, modify, Scroller.scrollToIndex.
    rewrite Hsc. destruct (Scroller.clamp _ i); eauto.
  - destruct (_scrollIntoView_run i s sc Hsc) as (sc' & E & _).
    eexists. exact (exec_ok _ _ _ _ E).
  - intros HN Hi.
    unfold exec, scrollToIndex, bind, read, lift, modify, Scroller.scrollToIndex.
    rewrite Hsc. fold N.
    destruct (Scroller.clamp N i) as [j|] eqn:E.
    + destruct (clamp_spec N i j E) as (B & L & U & _ & Near).
      exists (Scroller.set_scrollTarget (Some j) sc), j. repeat split; auto; lia.
    + unfold Scroller.clamp in E. destruct (Z.leb_spec N 0); [lia | discriminate].
Qed.

Lemma scrollToIndex_clamps_witness :
  exists sc' j,
    exec (scrollToIndex 250) (after demo_hundred)
    = Ok (upd__scroller (Some sc') (after demo_hundred))
    /\ Scroller.scrollTarget sc' = Some j
    /\ 0 <= j < Scroller.size demo_scroller
    /\ (250 < 0 -> j = 0) /\ (Scroller.size demo_scroller <= 250 -> j = Scroller.size demo_scroller - 1)
    /\ (forall k, 0 <= k < Scroller.size demo_scroller -> Z.abs (250 - j) <= Z.abs (250 - k)).
Proof.
  assert (_scroller (after demo_hundred) = Some demo_scroller) as Hsc
    by (vm_compute; reflexivity).
  destruct (scrollToIndex_clamps (after demo_hundred) demo_scroller 250 Hsc)
    as (_ & _ & _ & H).
  apply H.
  - vm_compute. reflexivity.
  - vm_compute. intros [_ C]. discriminate C.
Defined.

(** ** The focused item *)

Lemma index_lookup items i v :
  0 <= i -> items !! Z.to_nat i = Some v -> Js.index items i = v.
Proof.
  intros Hi H. unfold Js.index. destruct (Z.ltb_spec i 0); [lia|]. now rewrite H.
Qed.

(** C8, as the code has it. [_focusedIndex] starts at -1. For a negative
    index [_getFocusedItem] gives [undefined]; for an index of 0 or more it
    gives the element of [_items] at that index. [focusedItem] is computed
    from [_focusedIndex] alone: assigning a new [_focusedIndex] recomputes
    it from the [_items] of that moment, and assigning [_items] leaves it as
    it is. *)
Theorem focused_item_of_index :
  (forall touch computed,
     _focusedIndex (constructed touch computed) = -1
     /\ _focusedIndex (readied touch computed) = -1
     /\ focusedItem (readied touch computed) = Undefined)
  /\ (forall s i, i < 0 -> _getFocusedItem i s = Ok (Undefined, s))
  /\ (forall s i items v,
        0 <= i -> _items s = Some items -> items !! Z.to_nat i = Some v ->
        _getFocusedItem i s = Ok (v, s))
  /\ (forall s sc i items,
        _scroller s = Some sc -> _items s = Some items -> i <> _focusedIndex s ->
        exists s', exec (set__focusedIndex i) s = Ok s'
                   /\ _focusedIndex s' = i
                   /\ focusedItem s' = if i <? 0 then Undefined else Js.index items i)
  /\ (forall s sc items,
        _scroller s = Some sc ->
        exists s', exec (set__items items) s = Ok s'
                   /\ _items s' = items
                   /\ _focusedIndex s' = _focusedIndex s
                   /\ focusedItem s' = focusedItem s).
Proof.
  split; [|split; [|split; [|split]]].
  - intros touch computed. repeat split.
  - intros s i Hi. unfold _getFocusedItem. destruct (Z.leb_spec 0 i); [lia|]. reflexivity.
  - intros s i items v Hi Hit Hv. unfold _getFocusedItem, bind, read, ret.
    destruct (Z.leb_spec 0 i); [|lia]. rewrite Hit. now rewrite (index_lookup items i v).
  - intros s sc i items Hsc Hit Hne.
    unfold exec, set__focusedIndex, bind at 1, read at 1.
    destruct (Z.eqb_spec i (_focusedIndex s)) as [E|_]; [contradiction|].
    unfold bind at 1, modify at 1, bind at 1, _getFocusedItem.
    destruct (Z.leb_spec 0 i) as [Hi|Hi].
    + unfold bind at 1, read at 1. psimpl. rewrite Hit. unfold ret.
      unfold bind at 1, modify at 1.
      erewrite observe___updateScroller_run by (psimpl; exact Hsc).
      eexists. split; [reflexivity|]. psimpl.
      destruct (Z.ltb_spec i 0); [lia|]. auto.
    + unfold ret. unfold bind at 1, modify at 1.
      erewrite observe___updateScroller_run by (psimpl; exact Hsc).
      eexists. split; [reflexivity|]. psimpl.
      destruct (Z.ltb_spec i 0); [|lia]. auto.
  - intros s sc items Hsc. destruct (set__items_run items s sc Hsc) as (st & n & h & E).
    eexists. split; [exact (exec_ok _ _ _ _ E) | repeat split].
Qed.

Lemma focused_item_of_index_witness :
  _getFocusedItem (-1) (after demo_open) = Ok (Undefined, after demo_open)
  /\ _getFocusedItem 0 (after demo_open)
     = Ok (Obj [("label", Str "Item 0")], after demo_open).
Proof.
  destruct focused_item_of_index as (_ & Hneg & Hpos & _). split.
  - apply Hneg. lia.
  - apply (Hpos (after demo_open) 0 [Obj [("label", Str "Item 0")]]).
    + lia.
    + vm_compute. reflexivity.
    + reflexivity.
Defined.

(** C8, as stated, fails between two assignments of [_focusedIndex]: on
    the connected dropdown whose first item got the focus before the host
    replaced the items, [_focusedIndex] is 0 and [focusedItem] is still the
    first item of the old collection, not that of [_items]. *)
Lemma focusedItem_stale_after_items :
  reachable (after demo_stale)
  /\ _focusedIndex (after demo_stale) = 0
  /\ _items (after demo_stale) = Some [Str "other"]
  /\ focusedItem (after demo_stale) = Obj [("label", Str "Item 0")]
  /\ ~ (forall items, _items (after demo_stale) = Some items ->
        focusedItem (after demo_stale) = Js.index items (_focusedIndex (after demo_stale))).
Proof.
  split; [apply after_reachable; vm_compute; reflexivity|].
  split; [vm_compute; reflexivity|]. split; [vm_compute; reflexivity|].
  split; [vm_compute; reflexivity|].
  intros C. specialize (C [Str "other"]). vm_compute in C.
  specialize (C eq_refl). discriminate C.
Qed.

(** ** The label resolver *)

Section LabelResolverFacts.

Variable get : string -> Val -> Val.

Lemma truthy_not_nullish v : truthy v = true -> nullish v = false.
Proof. destruct v; cbn; congruence. Qed.

Lemma toString_primitive v : primitive v = true -> is_ok (toString v) = true.
Proof. destruct v as [| |[]| | | | |]; cbn; congruence. Qed.

Lemma getItemLabel_falsy this item path :
  truthy item = false -> getItemLabel get this item path = Ok (Str "").
Proof. intros H. unfold getItemLabel. rewrite H. reflexivity. Qed.

Lemma getItemLabel_truthy this item path :
  truthy item = true ->
  getItemLabel get this item path
  = if String.eqb (labelPath this path) "" || nullish (get (labelPath this path) item)
    then match toString item with
         | Ok str => Ok (Str str)
         | Throw e => Throw e
         end
    else Ok (get (labelPath this path) item).
Proof.
  intros H. unfold getItemLabel. fold (labelPath this path). rewrite H.
  cbn [andb]. destruct (String.eqb (labelPath this path) ""); cbn [negb orb nullish].
  - reflexivity.
  - destruct (nullish (get (labelPath this path) item)); reflexivity.
Qed.

(** The label [getItemLabel] returns is never [undefined] nor [null]. *)
Lemma getItemLabel_not_nullish this item path l :
  getItemLabel get this item path = Ok l -> nullish l = false.
Proof.
  destruct (truthy item) eqn:T.
  - rewrite (getItemLabel_truthy this item path T).
    destruct (String.eqb (labelPath this path) ""); cbn [orb].
    + destruct (toString item); [intros [= <-]; reflexivity | discriminate].
    + destruct (nullish (get (labelPath this path) item)) eqn:N.
      * destruct (toString item); [intros [= <-]; reflexivity | discriminate].
      * now intros [= <-].
  - rewrite (getItemLabel_falsy this item path T). now intros [= <-].
Qed.

End LabelResolverFacts.

(** C6, as the code has it. [getItemLabel] returns the empty string for a
    falsy item: an absent one, but also [false], [0], [NaN] and the empty
    string. For a truthy item it returns the value at the label path when
    there is a label path and that value is neither [undefined] nor [null],
    and the string coercion [item.toString()] otherwise. It throws only when
    that coercion throws, never on a falsy item, a boolean, a number or a
    string. *)
Theorem getItemLabel_resolves (get : string -> Val -> Val) this item itemLabelPath :
  (truthy item = false -> getItemLabel get this item itemLabelPath = Ok (Str ""))
  /\ (truthy item = true -> labelPath this itemLabelPath <> "" ->
      nullish (get (labelPath this itemLabelPath) item) = false ->
      getItemLabel get this item itemLabelPath
      = Ok (get (labelPath this itemLabelPath) item))
  /\ (truthy item = true ->
      labelPath this itemLabelPath = ""
      \/ nullish (get (labelPath this itemLabelPath) item) = true ->
      getItemLabel get this item itemLabelPath
      = match toString item with
        | Ok str => Ok (Str str)
        | Throw e => Throw e
        end)
  /\ (truthy item = false \/ is_ok (toString item) = true ->
      is_ok (getItemLabel get this item itemLabelPath) = true)
  /\ (primitive item = true -> is_ok (getItemLabel get this item itemLabelPath) = true).
Proof.
  assert (truthy item = false \/ is_ok (toString item) = true ->
          is_ok (getItemLabel get this item itemLabelPath) = true) as Hok.
  { intros [F|S].
    - now rewrite (getItemLabel_falsy get this item itemLabelPath F).
    - destruct (truthy item) eqn:T.
      + rewrite (getItemLabel_truthy get this item itemLabelPath T).
        destruct (_ || _); [|reflexivity].
        destruct (toString item); [reflexivity | discriminate].
      + now rewrite (getItemLabel_falsy get this item itemLabelPath T). }
  split; [|split; [|split; [|split]]].
  - apply getItemLabel_falsy.
  - intros T P N. rewrite (getItemLabel_truthy get this item itemLabelPath T), N.
    destruct (String.eqb_spec (labelPath this itemLabelPath) ""); [contradiction|reflexivity].
  - intros T H. rewrite (getItemLabel_truthy get this item itemLabelPath T).
    destruct H as [-> | ->]; [reflexivity | now rewrite orb_true_r].
  - exact Hok.
  - intros P. apply Hok. right. now apply toString_primitive.
Qed.

Lemma getItemLabel_resolves_witness :
  getItemLabel path_get demo_labelled (Obj [("label", Str "Apple")]) None
  = Ok (Str "Apple")
  /\ getItemLabel path_get demo_labelled (Str "Banana") None = Ok (Str "Banana")
  /\ getItemLabel path_get demo_labelled (Num 0) None = Ok (Str "").
Proof.
  split; [|split].
  - apply (getItemLabel_resolves path_get demo_labelled (Obj [("label", Str "Apple")]) None);
      [reflexivity | discriminate | reflexivity].
  - apply (getItemLabel_resolves path_get demo_labelled (Str "Banana") None);
      [reflexivity | right; reflexivity].
  - apply (getItemLabel_resolves path_get demo_labelled (Num 0) None). reflexivity.
Defined.

(** C6, as stated, fails: the item [0] is not absent and has no label, yet
    its label is the empty string and not ["0"]; and an object whose own
    [toString] property is the number 5 has no label and cannot be coerced,
    so [getItemLabel] throws. *)
Lemma getItemLabel_claimed_fails :
  getItemLabel path_get demo_labelled (Num 0) None = Ok (Str "")
  /\ toString (Num 0) = Ok "0"
  /\ is_ok (getItemLabel path_get demo_labelled (Obj [("toString", Num 5)]) None) = false
  /\ ~ getItemLabel_claimed path_get.
Proof.
  split; [reflexivity|]. split; [reflexivity|]. split; [reflexivity|].
  intros C. destruct (C demo_labelled (Num 0) None) as (_ & H & _).
  destruct H as (str & S & L); [reflexivity | reflexivity |].
  cbn in S. injection S as <-. discriminate L.
Qed.

(** ** The index of a label *)

Section IndexOfLabel.

Variable get : string -> Val -> Val.
Variable toLowerCase : string -> string.
Variable this : State.
Variable label : Val.
Variable b : string.
Hypothesis label_string : toString label = Ok b.

Lemma indexOfLabel_from_step item rest k a :
  labelString get this item = Ok a ->
  indexOfLabel_from get toLowerCase this label (item :: rest) k
  = if String.eqb (toLowerCase a) (toLowerCase b) then Ok k
    else indexOfLabel_from get toLowerCase this label rest (k + 1).
Proof.
  unfold labelString. cbn [indexOfLabel_from].
  destruct (getItemLabel get this item None) as [l|]; [|discriminate].
  intros ->. now rewrite label_string.
Qed.

Lemma indexOfLabel_from_found items : forall k i item,
  items !! i = Some item -> agrees get toLowerCase this b item ->
  (forall j item', (j < i)%nat -> items !! j = Some item' -> differs get toLowerCase this b item') ->
  indexOfLabel_from get toLowerCase this label items k = Ok (k + Z.of_nat i).
Proof.
  induction items as [|x items IH]; intros k i item Hi Hm Hbefore.
  - discriminate.
  - destruct i as [|i].
    + injection Hi as ->. destruct Hm as (a & La & E).
      rewrite (indexOfLabel_from_step _ _ _ a La), E, String.eqb_refl.
      f_equal. lia.
    + destruct (Hbefore 0%nat x) as (a & La & E); [lia | reflexivity |].
      rewrite (indexOfLabel_from_step _ _ _ a La).
      destruct (String.eqb_spec (toLowerCase a) (toLowerCase b)); [contradiction|].
      rewrite (IH (k + 1) i item Hi Hm).
      * f_equal. lia.
      * intros j item' Hj Hl. apply (Hbefore (S j) item'); [lia | exact Hl].
Qed.

Lemma indexOfLabel_from_none items : forall k,
  (forall j item, items !! j = Some item -> differs get toLowerCase this b item) ->
  indexOfLabel_from get toLowerCase this label items k = Ok (-1).
Proof.
  induction items as [|x items IH]; intros k Hall.
  - reflexivity.
  - destruct (Hall 0%nat x) as (a & La & E); [reflexivity|].
    rewrite (indexOfLabel_from_step _ _ _ a La).
    destruct (String.eqb_spec (toLowerCase a) (toLowerCase b)); [contradiction|].
    apply IH. intros j item Hl. apply (Hall (S j) item). exact Hl.
Qed.

(** What a normal return of the loop tells. *)
Lemma indexOfLabel_from_sound items : forall k r,
  indexOfLabel_from get toLowerCase this label items k = Ok r ->
  (r = -1 /\ forall j item, items !! j = Some item -> differs get toLowerCase this b item)
  \/ (exists i item, r = k + Z.of_nat i /\ items !! i = Some item /\ agrees get toLowerCase this b item
                     /\ forall j item', (j < i)%nat -> items !! j = Some item' ->
                                        differs get toLowerCase this b item').
Proof.
  induction items as [|x items IH]; intros k r H.
  - injection H as <-. left. split; [reflexivity|]. intros j item Hj. discriminate.
  - cbn [indexOfLabel_from] in H.
    destruct (getItemLabel get this x None) as [l|] eqn:G; [|discriminate].
    destruct (toString l) as [a|] eqn:T; [|discriminate].
    rewrite label_string in H.
    assert (labelString get this x = Ok a) as La by (unfold labelString; now rewrite G).
    destruct (String.eqb_spec (toLowerCase a) (toLowerCase b)) as [E|E].
    + injection H as <-. right. exists 0%nat, x. repeat split.
      * lia.
      * exists a. auto.
      * intros j item' Hj. lia.
    + destruct (IH (k + 1) r H) as [[-> Hall] | (i & item & -> & Hi & Hm & Hbefore)].
      * left. split; [reflexivity|]. intros [|j] item Hj.
        -- injection Hj as <-. exists a. auto.
        -- apply (Hall j item Hj).
      * right. exists (S i), item. repeat split; [lia | exact Hi | exact Hm |].
        intros [|j] item' Hj Hl.
        -- injection Hl as <-. exists a. auto.
        -- apply (Hbefore j item'); [lia | exact Hl].
Qed.

(** The loop throws at the first item whose label cannot be made a string,
    when no item before it matches. *)
Lemma indexOfLabel_from_throws items : forall k i item,
  items !! i = Some item -> is_ok (labelString get this item) = false ->
  (forall j item', (j < i)%nat -> items !! j = Some item' ->
                   differs get toLowerCase this b item') ->
  is_ok (indexOfLabel_from get toLowerCase this label items k) = false.
Proof.
  induction items as [|x items IH]; intros k i item Hi Ht Hbefore; [discriminate|].
  destruct i as [|i].
  - injection Hi as ->. cbn [indexOfLabel_from]. unfold labelString in Ht.
    destruct (getItemLabel get this item None) as [l|]; [|reflexivity].
    destruct (toString l); [discriminate Ht | reflexivity].
  - destruct (Hbefore 0%nat x) as (a & La & E); [lia | reflexivity |].
    rewrite (indexOfLabel_from_step _ _ _ a La).
    destruct (String.eqb_spec (toLowerCase a) (toLowerCase b)); [contradiction|].
    apply (IH (k + 1) i item Hi Ht).
    intros j item' Hj Hl. apply (Hbefore (S j) item'); [lia | exact Hl].
Qed.

End IndexOfLabel.

(** C10, as the code has it. [indexOfLabel] returns -1 when [_items] is
    absent and when the label is falsy. For a truthy label that coerces to a
    string, it goes through the items in order: it returns the index of the
    first item whose label equals the given label once both are
    lower-cased, when the labels of the items before it are strings that
    differ from it; it returns -1 when every item has such a differing
    label; it throws when it meets, before any match, an item whose label
    cannot be made a string. An index it returns, other than -1, is that of
    such a first match. *)
Theorem indexOfLabel_first_match (get : string -> Val -> Val)
    (toLowerCase : string -> string) this label :
  (_items this = None -> indexOfLabel get toLowerCase this label = Ok (-1))
  /\ (truthy label = false -> indexOfLabel get toLowerCase this label = Ok (-1))
  /\ (forall items b,
        _items this = Some items -> truthy label = true -> toString label = Ok b ->
        (forall i item,
           items !! i = Some item -> agrees get toLowerCase this b item ->
           (forall j item', (j < i)%nat -> items !! j = Some item' ->
                            differs get toLowerCase this b item') ->
           indexOfLabel get toLowerCase this label = Ok (Z.of_nat i))
        /\ ((forall j item, items !! j = Some item -> differs get toLowerCase this b item) ->
            indexOfLabel get toLowerCase this label = Ok (-1))
        /\ (forall i item,
              items !! i = Some item -> is_ok (labelString get this item) = false ->
              (forall j item', (j < i)%nat -> items !! j = Some item' ->
                               differs get toLowerCase this b item') ->
              is_ok (indexOfLabel get toLowerCase this label) = false)
        /\ (forall r, indexOfLabel get toLowerCase this label = Ok r -> r <> -1 ->
            exists i item, r = Z.of_nat i /\ items !! i = Some item
                           /\ agrees get toLowerCase this b item
                           /\ forall j item', (j < i)%nat -> items !! j = Some item' ->
                                              differs get toLowerCase this b item')).
Proof.
  split; [|split].
  - intros H. unfold indexOfLabel. now rewrite H.
  - intros H. unfold indexOfLabel. rewrite H. now destruct (_items this).
  - intros items b Hit T Hb. unfold indexOfLabel. rewrite Hit, T. split; [|split; [|split]].
    + intros i item Hi Hm Hbefore.
      now rewrite (indexOfLabel_from_found get toLowerCase this label b Hb items 0 i item
                     Hi Hm Hbefore).
    + apply (indexOfLabel_from_none get toLowerCase this label b Hb).
    + intros i item. apply (indexOfLabel_from_throws get toLowerCase this label b Hb).
    + intros r H Hr.
      destruct (indexOfLabel_from_sound get toLowerCase this label b Hb items 0 r H)
        as [[-> _] | (i & item & -> & Hi & Hm & Hbefore)]; [contradiction|].
      exists i, item. repeat split; auto.
Qed.

Lemma indexOfLabel_first_match_witness :
  indexOfLabel path_get toLowerCase_ascii demo_labelled (Str "BANANA") = Ok 1
  /\ indexOfLabel path_get toLowerCase_ascii demo_labelled (Str "") = Ok (-1)
  /\ indexOfLabel path_get toLowerCase_ascii (readied false ∅) (Str "BANANA") = Ok (-1)
  /\ is_ok (indexOfLabel path_get toLowerCase_ascii demo_uncoercible (Str "banana")) = false.
Proof.
  destruct (indexOfLabel_first_match path_get toLowerCase_ascii demo_labelled (Str "BANANA"))
    as (_ & _ & H).
  destruct (H [Obj [("label", Str "Apple")]; Str "Banana"; Obj [("label", Str "banana")]]
              "BANANA") as (Hfound & _); [reflexivity | reflexivity | reflexivity |].
  split; [|split; [|split]].
  - apply (Hfound 1%nat (Str "Banana")).
    + reflexivity.
    + exists "Banana". split; reflexivity.
    + intros [|j] item' Hj Hl; [|lia]. injection Hl as <-.
      exists "Apple". split; [reflexivity | discriminate].
  - destruct (indexOfLabel_first_match path_get toLowerCase_ascii demo_labelled (Str ""))
      as (_ & Hf & _).
    apply Hf. reflexivity.
  - destruct (indexOfLabel_first_match path_get toLowerCase_ascii (readied false ∅)
                (Str "BANANA")) as (Ha & _).
    apply Ha. reflexivity.
  - destruct (indexOfLabel_first_match path_get toLowerCase_ascii demo_uncoercible
                (Str "banana")) as (_ & _ & Hu).
    destruct (Hu [Obj [("toString", Num 5)]; Str "Banana"] "banana")
      as (_ & _ & Hthrows & _); [reflexivity | reflexivity | reflexivity |].
    apply (Hthrows 0%nat (Obj [("toString", Num 5)])).
    + reflexivity.
    + reflexivity.
    + intros j item' Hj. lia.
Defined.

(** C10, as stated, fails: in the collection of an object without a label
    whose own [toString] property is the number 5, followed by the string
    [Banana], the smallest index whose item's label equals [banana] up to
    case is 1 (the first item has no label to compare), yet [indexOfLabel]
    throws on the first item and returns no index. *)
Lemma indexOfLabel_claimed_fails :
  is_ok (indexOfLabel path_get toLowerCase_ascii demo_uncoercible (Str "banana")) = false
  /\ agrees path_get toLowerCase_ascii demo_uncoercible "banana" (Str "Banana")
  /\ is_ok (labelString path_get demo_uncoercible (Obj [("toString", Num 5)])) = false
  /\ ~ indexOfLabel_claimed path_get toLowerCase_ascii.
Proof.
  split; [reflexivity|]. split; [exists "Banana"; split; reflexivity|].
  split; [reflexivity|].
  intros C.
  assert (indexOfLabel path_get toLowerCase_ascii demo_uncoercible (Str "banana") = Ok 1)
    as H.
  { apply (C demo_uncoercible (Str "banana") "banana"
             [Obj [("toString", Num 5)]; Str "Banana"] 1%nat (Str "Banana"));
      try reflexivity.
    - exists "Banana". split; reflexivity.
    - intros [|j] item' Hj Hl; [|lia]. injection Hl as <-.
      intros (a & La & _). discriminate La. }
  vm_compute in H. discriminate H.
Qed.

(** ** Detaching the dropdown *)

(** [disconnectedCallback] closes the overlay whatever the inputs are: it is
    the end of the connected life the statements above are about. *)
Lemma disconnected_closes_overlay s sc :
  _scroller s = Some sc ->
  exists s', exec disconnectedCallback s = Ok s'
             /\ _overlayOpened s' = false
             /\ opened s' = opened s /\ loading s' = loading s /\ _items s' = _items s
             /\ dispatched s'
                = dispatched s ++ overlay_events (_overlayOpened s) false (__emptyItems s).
Proof.
  intros Hsc. destruct (set__overlayOpened_run false s sc Hsc) as (st & n & h & E).
  eexists. split; [exact (exec_ok _ _ _ _ E)|]. repeat split.
Qed.

Example disconnected_while_open :
  (fun s => (opened s, hasItems (_items s), _overlayOpened s, length (dispatched s)))
    <$> (match exec disconnectedCallback (after demo_open) with
         | Ok s => Some s
         | Throw _ => None
         end)
  = Some (true, true, false, 2%nat).
Proof. vm_compute. reflexivity. Qed.

(** ** What an action dispatches *)

Lemma overlay_events_same v flag : overlay_events v v flag = [].
Proof. unfold overlay_events. now rewrite Bool.eqb_reflx. Qed.

Lemma observed_log st n h sc s :
  __emptyItems s = false ->
  dispatched (observed st n h sc s)
  = dispatched s
    ++ overlay_events (_overlayOpened s) (_overlayOpened (observed st n h sc s))
         (negb (hasItems (_items (observed st n h sc s)))).
Proof. intros He. obs_unfold. now rewrite He, orb_false_r. Qed.

(** The log only grows, by the events of [appended]. *)
Lemma perform_log a s s' :
  Inv s -> exec (perform a) s = Ok s' ->
  dispatched s' = dispatched s ++ appended a s s'.
Proof.
  intros [(sc & Hsc & Hl & _) _ He] H.
  destruct (perform_outcome a s s' sc Hsc Hl H) as [a Ha| | | | | | | | | | | | | |];
    try (apply observed_log; exact He);
    try (cbn [appended]; rewrite ?app_nil_r; reflexivity).
  destruct a; try discriminate Ha;
    cbn [appended]; rewrite ?overlay_events_same, ?app_nil_r; reflexivity.
Qed.

(** An action other than a change of [opened], [loading] or [_items] leaves
    them, and the overlay, as they are. *)
Lemma perform_keeps_inputs a s s' :
  Inv s -> is_input a = false -> exec (perform a) s = Ok s' ->
  opened s' = opened s /\ loading s' = loading s /\ _items s' = _items s
  /\ _overlayOpened s' = _overlayOpened s.
Proof.
  intros [(sc & Hsc & Hl & _) _ _] Ha H.
  destruct (perform_outcome a s s' sc Hsc Hl H); try discriminate Ha; repeat split.
Qed.

(** X1. A change of [opened], [loading] or [_items] on a connected dropdown
    dispatches at most one event: nothing when the overlay stays as it is,
    the [vaadin-combo-box-dropdown-opened] event when the overlay opens, and
    when the overlay closes the [vaadin-combo-box-dropdown-closed] event if
    items are left, nothing if none is. *)
Theorem input_change_events a s s' :
  reachable s -> is_input a = true -> exec (perform a) s = Ok s' ->
  (_overlayOpened s' = _overlayOpened s -> dispatched s' = dispatched s)
  /\ (_overlayOpened s = false -> _overlayOpened s' = true ->
      dispatched s' = dispatched s ++ [openedEvent])
  /\ (_overlayOpened s = true -> _overlayOpened s' = false ->
      dispatched s' = dispatched s ++ if hasItems (_items s') then [closedEvent] else []).
Proof.
  intros R Ha H. pose proof (perform_log a s s' (reachable_Inv s R) H) as L.
  destruct a; try discriminate Ha; cbn [appended] in L; rewrite L;
    unfold overlay_events; repeat split.
  all: try (intros ->; now rewrite Bool.eqb_reflx, app_nil_r).
  all: try (intros -> ->; reflexivity).
  all: intros -> ->; cbn; now destruct (hasItems (_items s')).
Qed.

Lemma input_change_events_witness :
  exists s',
    exec (perform (SetItems (Some []))) (after demo_open) = Ok s'
    /\ _overlayOpened s' = false
    /\ dispatched s' = dispatched (after demo_open) ++ if hasItems (_items s') then [closedEvent] else [].
Proof.
  destruct (exec (perform (SetItems (Some []))) (after demo_open)) as [s'|] eqn:E;
    [|vm_compute in E; discriminate E].
  exists s'. split; [reflexivity|].
  assert (_overlayOpened s' = false) as Hc.
  { vm_compute in E. injection E as <-. reflexivity. }
  split; [exact Hc|].
  apply (input_change_events (SetItems (Some [])) (after demo_open) s').
  - apply after_reachable. vm_compute. reflexivity.
  - reflexivity.
  - exact E.
  - vm_compute. reflexivity.
  - exact Hc.
Defined.

Lemma count_type_app ty log log' :
  count_type ty (log ++ log') = (count_type ty log + count_type ty log')%nat.
Proof. unfold count_type. now rewrite filter_app, length_app. Qed.

Lemma count_type_relayed ty e :
  relayed (type e) = true -> relayed ty = false -> count_type ty [forwarded e] = 0%nat.
Proof.
  intros He Hty. unfold count_type. rewrite filter_cons, filter_nil.
  rewrite decide_False; [reflexivity|].
  cbn. intros E. rewrite E in He. congruence.
Qed.

Lemma count_type_overlay_events :
  count_type "vaadin-combo-box-dropdown-closed" [openedEvent] = 0%nat
  /\ count_type "vaadin-combo-box-dropdown-opened" [openedEvent] = 1%nat
  /\ count_type "vaadin-combo-box-dropdown-closed" [closedEvent] = 1%nat
  /\ count_type "vaadin-combo-box-dropdown-opened" [closedEvent] = 0%nat.
Proof. vm_compute. repeat split. Qed.

(** X2. In the log of a connected dropdown the closed events never
    outnumber the opened ones: there are at least as many opened events as
    closed events, and one more while the overlay is opened. *)
Theorem closed_events_follow_opened s :
  reachable s ->
  (count_type "vaadin-combo-box-dropdown-closed" (dispatched s) + open_count s
   <= count_type "vaadin-combo-box-dropdown-opened" (dispatched s))%nat.
Proof.
  induction 1 as [touch computed s H | a s s' R IH H].
  - rewrite ready_run in H. injection H as <-. cbn. lia.
  - pose proof (reachable_Inv s R) as I.
    rewrite (perform_log a s s' I H), !count_type_app.
    destruct (is_input a) eqn:Ha.
    + assert (appended a s s'
              = overlay_events (_overlayOpened s) (_overlayOpened s')
                  (negb (hasItems (_items s')))) as ->
        by (destruct a; try discriminate Ha; reflexivity).
      destruct count_type_overlay_events as (C1 & C2 & C3 & C4).
      unfold open_count in *. unfold overlay_events.
      destruct (_overlayOpened s), (_overlayOpened s'), (hasItems (_items s'));
        cbn [Bool.eqb negb andb] in *; rewrite ?C1, ?C2, ?C3, ?C4;
        change (count_type _ []) with 0%nat; lia.
    + destruct (perform_keeps_inputs a s s' I Ha H) as (_ & _ & _ & Ho).
      unfold open_count in *. rewrite Ho.
      assert (count_type "vaadin-combo-box-dropdown-closed" (appended a s s') = 0
              /\ count_type "vaadin-combo-box-dropdown-opened" (appended a s s') = 0)%nat
        as [-> ->]; [|lia].
      destruct a; try discriminate Ha; cbn [appended]; try (split; reflexivity).
      destruct (relayed (type e)) eqn:He; [|split; reflexivity].
      split; apply count_type_relayed; auto.
Qed.

Lemma closed_events_follow_opened_witness :
  (count_type "vaadin-combo-box-dropdown-closed" (dispatched (after demo_refilled))
   + open_count (after demo_refilled)
   <= count_type "vaadin-combo-box-dropdown-opened" (dispatched (after demo_refilled)))%nat.
Proof.
  apply (closed_events_follow_opened (after demo_refilled)).
  apply after_reachable. vm_compute. reflexivity.
Defined.

(** X3. On a connected dropdown on which no assignment has thrown, the
    scroller holds the dropdown's current [opened], [loading],
    [_selectedItem], [_itemIdPath], [_focusedIndex], [renderer] and
    [theme]. *)
Theorem scroller_mirrors_dropdown s :
  reachable s -> exists sc, _scroller s = Some sc /\ mirrors sc s.
Proof.
  induction 1 as [touch computed s H | a s s' R (sc0 & Hsc0 & M) H].
  - rewrite ready_run in H. injection H as <-. eexists. split; [reflexivity|].
    repeat split.
  - destruct (reachable_Inv s R) as [(sc & Hsc & Hl & _) _ _].
    assert (sc0 = sc) as -> by congruence.
    destruct M as (M1 & M2 & M3 & M4 & M5 & M6 & M7).
    destruct (perform_outcome a s s' sc Hsc Hl H);
      (eexists; split;
       [psimpl; first [reflexivity | exact Hsc]
       |repeat split; psimpl; first [reflexivity | assumption]]).
Qed.

Lemma scroller_mirrors_dropdown_witness :
  exists sc, _scroller (after demo_open) = Some sc /\ mirrors sc (after demo_open).
Proof.
  apply (scroller_mirrors_dropdown (after demo_open)).
  apply after_reachable. vm_compute. reflexivity.
Defined.

(** X4. [focusedItem] follows [_focusedIndex] only: on a connected dropdown
    no action but an assignment of [_focusedIndex] changes [_focusedIndex]
    or [focusedItem]; in particular a new item collection leaves the
    focused item of the old one in place. *)
Theorem focusedItem_follows_index_only a s s' :
  reachable s -> sets_focusedIndex a = false -> exec (perform a) s = Ok s' ->
  _focusedIndex s' = _focusedIndex s /\ focusedItem s' = focusedItem s.
Proof.
  intros R Ha H. destruct (reachable_Inv s R) as [(sc & Hsc & Hl & _) _ _].
  destruct (perform_outcome a s s' sc Hsc Hl H); try discriminate Ha; split; reflexivity.
Qed.

Lemma focusedItem_follows_index_only_witness :
  exists s',
    exec (perform (SetItems (Some [Str "other"])))
      (after (demo_open ++ [SetFocusedIndex 0])) = Ok s'
    /\ _focusedIndex s' = 0
    /\ focusedItem s' = Obj [("label", Str "Item 0")]
    /\ _items s' = Some [Str "other"].
Proof.
  destruct (exec (perform (SetItems (Some [Str "other"])))
              (after (demo_open ++ [SetFocusedIndex 0]))) as [s'|] eqn:E;
    [|vm_compute in E; discriminate E].
  exists s'. split; [reflexivity|].
  destruct (focusedItem_follows_index_only (SetItems (Some [Str "other"]))
              (after (demo_open ++ [SetFocusedIndex 0])) s') as [Hi Hf].
  - apply after_reachable. vm_compute. reflexivity.
  - reflexivity.
  - exact E.
  - rewrite Hi, Hf. split; [vm_compute; reflexivity|]. split; [vm_compute; reflexivity|].
    vm_compute in E. injection E as <-. reflexivity.
Defined.



(** ** Opening the overlay *)

Lemma _openedChanged_true_scroller w s sc :
  _scroller s = Some sc ->
  exists s', _openedChanged true w s = Ok (tt, s')
             /\ _scroller s' = Some (Scroller.set_maxHeight (maxHeightValue s) sc)
             /\ hostStyle s' = hostStyle s /\ __hostTagName s' = __hostTagName s.
Proof.
  intros Hsc. unfold _openedChanged.
  destruct (_setOverlayWidth_shape s) as (st & n & E).
  rewrite (bind_run _ _ _ _ _ E).
  unfold bind, read, modify, dispatchEvent. psimpl. rewrite Hsc.
  eexists. split; [reflexivity|]. repeat split.
Qed.

Lemma _openedOrItemsChanged_opening opened items loading s sc :
  _scroller s = Some sc -> _overlayOpened s = false ->
  opened && (loading || hasItems items) = true ->
  exists s', _openedOrItemsChanged opened items loading s = Ok (tt, s')
             /\ _scroller s' = Some (Scroller.set_maxHeight (maxHeightValue s) sc).
Proof.
  intros Hsc Hov Hv. unfold _openedOrItemsChanged. rewrite Hv.
  set (s0 := if negb (hasItems items) then upd___emptyItems true s else s).
  assert ((if negb (hasItems items) then modify (upd___emptyItems true) else ret tt) s
          = Ok (tt, s0)) as E0 by (unfold s0; destruct (hasItems items); reflexivity).
  assert (_scroller s0 = Some sc /\ _overlayOpened s0 = false
          /\ maxHeightValue s0 = maxHeightValue s) as (Hsc0 & Hov0 & Hmh)
    by (unfold s0; destruct (hasItems items); repeat split; assumption).
  rewrite (bind_run _ _ _ _ _ E0).
  unfold bind at 1, set__overlayOpened, bind at 1, read at 1. rewrite Hov0.
  cbn [Bool.eqb]. unfold bind at 1, modify at 1.
  destruct (_openedChanged_true_scroller false (upd__overlayOpened true s0) sc Hsc0)
    as (s1 & E1 & Hsc1 & _).
  rewrite E1. unfold modify at 1.
  eexists. split; [reflexivity|]. psimpl. rewrite Hsc1. f_equal. f_equal. exact Hmh.
Qed.

Lemma observers_opening s sc :
  _scroller s = Some sc -> _overlayOpened s = false ->
  opened s && (loading s || hasItems (_items s)) = true ->
  exists s', (observe__openedOrItemsChanged ;; observe___updateScroller) s = Ok (tt, s')
             /\ (Scroller.maxHeight <$> _scroller s') = Some (maxHeightValue s).
Proof.
  intros Hsc Hov Hv.
  destruct (_openedOrItemsChanged_opening (opened s) (_items s) (loading s) s sc Hsc Hov Hv)
    as (s1 & E1 & Hsc1).
  unfold observe__openedOrItemsChanged at 1.
  unfold bind at 1. unfold bind at 1. unfold read at 1. cbv beta iota. unfold id at 1 2 3.
  rewrite E1.
  erewrite observe___updateScroller_run by exact Hsc1.
  eexists. split; reflexivity.
Qed.

(** X6. When a change of [opened], [loading] or [_items] opens the overlay
    of a connected dropdown, the scroller's maximal height is set to the
    computed value of the host's overlay-max-height custom property, and to
    [65vh] when that value is empty. *)
Theorem opening_sets_max_height a s s' :
  reachable s -> is_input a = true -> exec (perform a) s = Ok s' ->
  _overlayOpened s = false -> _overlayOpened s' = true ->
  (Scroller.maxHeight <$> _scroller s')
  = Some (if String.eqb (getPropertyValue (hostStyle s) (maxHeightProperty s)) ""
          then "65vh"
          else getPropertyValue (hostStyle s) (maxHeightProperty s)).
Proof.
  intros R Ha H Hclosed Hopen.
  destruct (reachable_Inv s R) as [(sc & Hsc & _) _ _].
  assert (forall s0, _scroller s0 = Some sc -> _overlayOpened s0 = false ->
                     maxHeightValue s0 = maxHeightValue s ->
                     exec (observe__openedOrItemsChanged ;; observe___updateScroller) s0
                     = Ok s' ->
                     (Scroller.maxHeight <$> _scroller s') = Some (maxHeightValue s)) as K.
  { intros s0 Hsc0 Hov0 Hmh E.
    destruct (observers_run s0 sc Hsc0) as (st & n & h & Eo).
    pose proof E as E'. rewrite (exec_ok _ _ _ _ Eo) in E'. injection E' as <-.
    assert (opened s0 && (loading s0 || hasItems (_items s0)) = true) as Hv
      by exact Hopen.
    destruct (observers_opening s0 sc Hsc0 Hov0 Hv) as (s1 & E1 & M).
    rewrite (exec_ok _ _ _ _ E1) in E. injection E as <-. now rewrite M, Hmh. }
  destruct a; try discriminate Ha; cbn [perform] in H.
  - unfold set_opened, exec, bind at 1, read at 1 in H.
    destruct (Bool.eqb v (opened s)).
    + injection H as <-. congruence.
    + apply (K (upd_opened v s)); auto.
  - unfold set_loading, exec, bind at 1, read at 1 in H.
    destruct (Bool.eqb v (loading s)).
    + injection H as <-. congruence.
    + apply (K (upd_loading v s)); auto.
  - unfold set__items, exec, bind at 1, modify at 1 in H.
    apply (K (upd__items v s)); auto.
Qed.

Lemma opening_sets_max_height_witness :
  exists s',
    exec (perform (SetLoading true)) (after [SetOpened true]) = Ok s'
    /\ (Scroller.maxHeight <$> _scroller s') = Some "65vh".
Proof.
  destruct (exec (perform (SetLoading true)) (after [SetOpened true])) as [s'|] eqn:E;
    [|vm_compute in E; discriminate E].
  exists s'. split; [reflexivity|].
  apply (opening_sets_max_height (SetLoading true) (after [SetOpened true]) s').
  - apply after_reachable. vm_compute. reflexivity.
  - reflexivity.
  - exact E.
  - vm_compute. reflexivity.
  - vm_compute in E. injection E as <-. reflexivity.
Defined.

(** ** Detaching *)

(** X7. Detaching a connected dropdown closes the overlay and leaves
    [opened], [loading] and [_items] as they are; it dispatches the
    [vaadin-combo-box-dropdown-closed] event if the overlay was opened and
    nothing otherwise, and detaching again changes nothing. *)
Theorem disconnect_closes_once s :
  reachable s ->
  exists s',
    exec disconnectedCallback s = Ok s'
    /\ _overlayOpened s' = false
    /\ opened s' = opened s /\ loading s' = loading s /\ _items s' = _items s
    /\ dispatched s' = dispatched s ++ (if _overlayOpened s then [closedEvent] else [])
    /\ disconnectedCallback s' = Ok (tt, s').
Proof.
  intros R. destruct (reachable_Inv s R) as [(sc & Hsc & _) _ He].
  destruct (set__overlayOpened_run false s sc Hsc) as (st & n & h & E).
  eexists. split; [exact (exec_ok _ _ _ _ E)|]. repeat split.
  - psimpl. rewrite He. unfold overlay_events. now destruct (_overlayOpened s).
Qed.

Lemma disconnect_closes_once_witness :
  exists s',
    exec disconnectedCallback (after demo_open) = Ok s'
    /\ _overlayOpened s' = false
    /\ opened s' = opened (after demo_open) /\ loading s' = loading (after demo_open)
    /\ _items s' = _items (after demo_open)
    /\ dispatched s'
       = dispatched (after demo_open)
         ++ (if _overlayOpened (after demo_open) then [closedEvent] else [])
    /\ disconnectedCallback s' = Ok (tt, s').
Proof.
  apply (disconnect_closes_once (after demo_open)).
  apply after_reachable. vm_compute. reflexivity.
Defined.

(** ** The focused index *)

(** X8. Assigning a new [_focusedIndex] returns when the index is negative
    or [_items] is an array, and throws when the index is 0 or more while
    [_items] is still undefined. *)
Theorem focusedIndex_needs_items s i :
  reachable s -> i <> _focusedIndex s ->
  (i < 0 \/ _items s <> None -> is_ok (exec (set__focusedIndex i) s) = true)
  /\ (0 <= i -> _items s = None -> is_ok (exec (set__focusedIndex i) s) = false).
Proof.
  intros R Hne. destruct (reachable_Inv s R) as [(sc & Hsc & _) _ _].
  split.
  - intros Hok.
    unfold exec, set__focusedIndex, bind at 1, read at 1.
    destruct (Z.eqb_spec i (_focusedIndex s)) as [E|_]; [contradiction|].
    unfold bind at 1, modify at 1, bind at 1, _getFocusedItem.
    destruct (Z.leb_spec 0 i) as [Hi|Hi].
    + destruct Hok as [Hneg|Hit]; [lia|].
      unfold bind at 1, read at 1. psimpl.
      destruct (_items s) as [items|]; [|contradiction]. unfold ret.
      unfold bind at 1, modify at 1.
      erewrite observe___updateScroller_run by (psimpl; exact Hsc). reflexivity.
    + unfold ret, bind at 1, modify at 1.
      erewrite observe___updateScroller_run by (psimpl; exact Hsc). reflexivity.
  - intros Hi Hit.
    unfold exec, set__focusedIndex, bind at 1, read at 1.
    destruct (Z.eqb_spec i (_focusedIndex s)) as [E|_]; [contradiction|].
    unfold bind at 1, modify at 1, bind at 1, _getFocusedItem.
    destruct (Z.leb_spec 0 i); [|lia].
    unfold bind at 1, read at 1. psimpl. rewrite Hit. reflexivity.
Qed.

Lemma focusedIndex_needs_items_witness :
  is_ok (exec (set__focusedIndex 0) (after demo_open)) = true
  /\ is_ok (exec (set__focusedIndex 0) (after [])) = false.
Proof.
  split.
  - apply (focusedIndex_needs_items (after demo_open) 0).
    + apply after_reachable. vm_compute. reflexivity.
    + vm_compute. discriminate.
    + right. vm_compute. discriminate.
  - apply (focusedIndex_needs_items (after []) 0).
    + apply after_reachable. vm_compute. reflexivity.
    + vm_compute. discriminate.
    + lia.
    + vm_compute. reflexivity.
Defined.

(** ** More on labels *)

(** X9. A label [getItemLabel] returns is never [undefined] nor [null],
    so that the [toString()] call [indexOfLabel] makes on it has a
    receiver. *)
Theorem getItemLabel_never_nullish (get : string -> Val -> Val) this item path l :
  getItemLabel get this item path = Ok l -> l <> Undefined /\ l <> Null.
Proof.
  intros H. pose proof (getItemLabel_not_nullish get this item path l H) as N.
  split; intros ->; discriminate N.
Qed.

Lemma getItemLabel_never_nullish_witness :
  Str "Banana" <> Undefined /\ Str "Banana" <> Null.
Proof.
  apply (getItemLabel_never_nullish path_get demo_labelled (Str "Banana") None).
  reflexivity.
Defined.

(** X10. An empty label path given to [getItemLabel] counts as none: the
    path of the dropdown is used, as when the argument is left out; a
    non-empty one replaces the path of the dropdown altogether. *)
Theorem getItemLabel_path_argument (get : string -> Val -> Val) this item :
  getItemLabel get this item (Some "") = getItemLabel get this item None
  /\ getItemLabel get this item (Some (_itemLabelPath this))
     = getItemLabel get this item None
  /\ (forall p this', p <> "" ->
        getItemLabel get this item (Some p) = getItemLabel get this' item (Some p)).
Proof.
  split; [reflexivity|]. split.
  - unfold getItemLabel.
    destruct (String.eqb (_itemLabelPath this) "") eqn:E; rewrite ?E; reflexivity.
  - intros p this' Hp. unfold getItemLabel.
    destruct (String.eqb_spec p ""); [contradiction | reflexivity].
Qed.

Lemma getItemLabel_path_argument_witness :
  getItemLabel path_get demo_labelled (Obj [("name", Str "Cherry")]) (Some "name")
  = getItemLabel path_get (readied false ∅) (Obj [("name", Str "Cherry")]) (Some "name").
Proof.
  apply (getItemLabel_path_argument path_get demo_labelled (Obj [("name", Str "Cherry")])).
  discriminate.
Defined.

Lemma indexOfLabel_from_case (get : string -> Val -> Val)
    (toLowerCase : string -> string) this label label' a b items :
  toString label = Ok a -> toString label' = Ok b -> toLowerCase a = toLowerCase b ->
  forall k, indexOfLabel_from get toLowerCase this label items k
            = indexOfLabel_from get toLowerCase this label' items k.
Proof.
  intros Ha Hb E. induction items as [|x items IH]; intros k; [reflexivity|].
  cbn [indexOfLabel_from].
  destruct (getItemLabel get this x None) as [l|]; [|reflexivity].
  destruct (toString l) as [c|]; [|reflexivity].
  rewrite Ha, Hb, E. now rewrite IH.
Qed.

(** X11. [indexOfLabel] does not tell apart two labels that are equal once
    lower-cased. *)
Theorem indexOfLabel_ignores_case (get : string -> Val -> Val)
    (toLowerCase : string -> string) this a b :
  a <> "" -> b <> "" -> toLowerCase a = toLowerCase b ->
  indexOfLabel get toLowerCase this (Str a) = indexOfLabel get toLowerCase this (Str b).
Proof.
  intros Ha Hb E. unfold indexOfLabel. destruct (_items this) as [items|]; [|reflexivity].
  cbn [truthy].
  destruct (String.eqb_spec a ""); [contradiction|].
  destruct (String.eqb_spec b ""); [contradiction|].
  cbn [negb]. now apply (indexOfLabel_from_case get toLowerCase this (Str a) (Str b) a b).
Qed.

Lemma indexOfLabel_ignores_case_witness :
  indexOfLabel path_get toLowerCase_ascii demo_labelled (Str "bAnAnA")
  = indexOfLabel path_get toLowerCase_ascii demo_labelled (Str "BANANA").
Proof.
  apply (indexOfLabel_ignores_case path_get toLowerCase_ascii demo_labelled "bAnAnA" "BANANA").
  - discriminate.
  - discriminate.
  - reflexivity.
Defined.

Lemma indexOfLabel_from_bounds (get : string -> Val -> Val)
    (toLowerCase : string -> string) this label items :
  forall k r, indexOfLabel_from get toLowerCase this label items k = Ok r ->
              r = -1 \/ k <= r < k + Z.of_nat (length items).
Proof.
  induction items as [|x items IH]; intros k r H.
  - injection H as <-. now left.
  - cbn [indexOfLabel_from] in H.
    destruct (getItemLabel get this x None) as [l|]; [|discriminate].
    destruct (toString l) as [a|]; [|discriminate].
    destruct (toString label) as [b|]; [|discriminate].
    destruct (String.eqb (toLowerCase a) (toLowerCase b)).
    + injection H as <-. right. cbn [length]. lia.
    + destruct (IH (k + 1) r H) as [->|B]; [now left|]. right. cbn [length]. lia.
Qed.

(** X12. What [indexOfLabel] returns is -1 or an index into [_items]: at
    least 0 and below the number of items. *)
Theorem indexOfLabel_in_bounds (get : string -> Val -> Val)
    (toLowerCase : string -> string) this label r :
  indexOfLabel get toLowerCase this label = Ok r ->
  r = -1
  \/ exists items, _items this = Some items /\ 0 <= r < Z.of_nat (length items).
Proof.
  unfold indexOfLabel. destruct (_items this) as [items|].
  - destruct (truthy label).
    + intros H. destruct (indexOfLabel_from_bounds get toLowerCase this label items 0 r H) as [->|B].
      * now left.
      * right. exists items. split; [reflexivity | lia].
    + intros [= <-]. now left.
  - intros [= <-]. now left.
Qed.

Lemma indexOfLabel_in_bounds_witness :
  exists items, _items demo_labelled = Some items /\ 0 <= 1 < Z.of_nat (length items).
Proof.
  destruct (indexOfLabel_in_bounds path_get toLowerCase_ascii demo_labelled (Str "BANANA") 1) as [C|H].
  - reflexivity.
  - discriminate C.
  - exact H.
Defined.

Lemma indexOfLabel_from_own_label (get : string -> Val -> Val)
    (toLowerCase : string -> string) this a items :
  forall k i item,
    items !! i = Some item -> labelString get this item = Ok a ->
    (forall j item', (j < i)%nat -> items !! j = Some item' ->
                     is_ok (labelString get this item') = true) ->
    exists j item',
      indexOfLabel_from get toLowerCase this (Str a) items k = Ok (k + Z.of_nat j)
      /\ (j <= i)%nat /\ items !! j = Some item' /\ agrees get toLowerCase this a item'.
Proof.
  induction items as [|x items IH]; intros k i item Hi La Hbefore; [discriminate|].
  assert (exists c, labelString get this x = Ok c) as (c & Lc).
  { destruct i as [|i].
    - injection Hi as ->. eauto.
    - specialize (Hbefore 0%nat x ltac:(lia) eq_refl).
      destruct (labelString get this x); [eauto | discriminate]. }
  rewrite (indexOfLabel_from_step get toLowerCase this (Str a) a eq_refl x items k c Lc).
  destruct (String.eqb_spec (toLowerCase c) (toLowerCase a)) as [E|N].
  - exists 0%nat, x. repeat split; [f_equal; lia | lia |]. exists c. auto.
  - destruct i as [|i].
    + injection Hi as ->. rewrite La in Lc. injection Lc as ->. contradiction.
    + destruct (IH (k + 1) i item Hi La) as (j & item' & E & Hj & Hl & Hag).
      { intros j item' Hj Hl. apply (Hbefore (S j) item'); [lia | exact Hl]. }
      exists (S j), item'. rewrite E. repeat split; [f_equal; lia | lia | exact Hl | exact Hag].
Qed.

(** X13. Looking up the label of an item of [_items] finds that item or an
    earlier one with the same label up to case: when the label is a
    non-empty string and the items before it have string labels,
    [indexOfLabel] returns an index no greater than the item's, of an item
    that bears the label. *)
Theorem indexOfLabel_finds_own_label (get : string -> Val -> Val)
    (toLowerCase : string -> string) this items i item a :
  _items this = Some items -> items !! i = Some item ->
  labelString get this item = Ok a -> a <> "" ->
  (forall j item', (j < i)%nat -> items !! j = Some item' ->
                   is_ok (labelString get this item') = true) ->
  exists j item',
    indexOfLabel get toLowerCase this (Str a) = Ok (Z.of_nat j)
    /\ (j <= i)%nat /\ items !! j = Some item' /\ agrees get toLowerCase this a item'.
Proof.
  intros Hit Hi La Ha Hbefore. unfold indexOfLabel. rewrite Hit. cbn [truthy].
  destruct (String.eqb_spec a ""); [contradiction|]. cbn [negb].
  destruct (indexOfLabel_from_own_label get toLowerCase this a items 0 i item Hi La Hbefore)
    as (j & item' & E & H).
  exists j, item'. now rewrite E.
Qed.

Lemma indexOfLabel_finds_own_label_witness :
  exists j item',
    indexOfLabel path_get toLowerCase_ascii demo_labelled (Str "banana") = Ok (Z.of_nat j)
    /\ (j <= 2)%nat
    /\ [Obj [("label", Str "Apple")]; Str "Banana"; Obj [("label", Str "banana")]] !! j
       = Some item'
    /\ agrees path_get toLowerCase_ascii demo_labelled "banana" item'.
Proof.
  apply (indexOfLabel_finds_own_label path_get toLowerCase_ascii demo_labelled
           [Obj [("label", Str "Apple")]; Str "Banana"; Obj [("label", Str "banana")]]
           2%nat (Obj [("label", Str "banana")]) "banana").
  - reflexivity.
  - reflexivity.
  - reflexivity.
  - discriminate.
  - intros [|[|j]] item' Hj Hl; [| |lia]; injection Hl as <-; reflexivity.
Defined.

(** ** More on the width of the overlay *)

(** X14. With a position target, [_setOverlayWidth] stores the client width
    of the target, in pixels, in the overlay's default-width property,
    whether or not the host sets a width override; it asks the overlay once
    to update its position and dispatches no event on the dropdown. *)
Theorem setOverlayWidth_stores_default_width s target :
  positionTarget s = Some target ->
  exists s',
    exec _setOverlayWidth s = Ok s'
    /\ overlayStyle s' !! defaultWidthProperty s
       = Some (pretty (clientWidth target) +:+ "px")
    /\ overlayPositionUpdates s' = S (overlayPositionUpdates s)
    /\ dispatched s' = dispatched s /\ _overlayOpened s' = _overlayOpened s.
Proof.
  intros H. eexists. split; [exact (exec_ok _ _ _ _ (_setOverlayWidth_run s target H))|].
  psimpl. cbv zeta. split; [|repeat split].
  destruct (String.eqb _ "").
  - rewrite lookup_delete_ne by apply width_properties_differ.
    apply lookup_insert_eq.
  - rewrite lookup_insert_ne by apply width_properties_differ.
    apply lookup_insert_eq.
Qed.

Lemma setOverlayWidth_stores_default_width_witness :
  exists s',
    exec _setOverlayWidth demo_styled = Ok s'
    /\ overlayStyle s' !! defaultWidthProperty demo_styled
       = Some (pretty (clientWidth {| clientWidth := 200 |}) +:+ "px")
    /\ overlayPositionUpdates s' = S (overlayPositionUpdates demo_styled)
    /\ dispatched s' = dispatched demo_styled
    /\ _overlayOpened s' = _overlayOpened demo_styled.
Proof.
  apply (setOverlayWidth_stores_default_width demo_styled {| clientWidth := 200 |}).
  reflexivity.
Defined.

(** X15. Running [_setOverlayWidth] a second time, with the position
    target and the host's style as they were, leaves the overlay's width
    override and default-width properties, and so the width the overlay
    takes, as the first run made them. *)
Theorem setOverlayWidth_twice s :
  exists s1 s2,
    exec _setOverlayWidth s = Ok s1 /\ exec _setOverlayWidth s1 = Ok s2
    /\ overlayStyle s2 !! widthProperty s = overlayStyle s1 !! widthProperty s
    /\ overlayStyle s2 !! defaultWidthProperty s = overlayStyle s1 !! defaultWidthProperty s
    /\ overlayWidth s2 = overlayWidth s1.
Proof.
  destruct (positionTarget s) as [target|] eqn:H.
  - pose proof (_setOverlayWidth_run s target H) as R1.
    match type of R1 with _ = Ok (tt, ?x) => set (s1 := x) in R1 end.
    assert (positionTarget s1 = Some target) as H1 by exact H.
    pose proof (_setOverlayWidth_run s1 target H1) as R2.
    match type of R2 with _ = Ok (tt, ?x) => set (s2 := x) in R2 end.
    exists s1, s2. split; [exact (exec_ok _ _ _ _ R1)|].
    split; [exact (exec_ok _ _ _ _ R2)|].
    assert (overlayStyle s2 = overlayStyle s1) as E.
    { unfold s2. psimpl.
      change (defaultWidthProperty s1) with (defaultWidthProperty s).
      change (widthProperty s1) with (widthProperty s).
      change (hostStyle s1) with (hostStyle s).
      unfold s1. psimpl. cbv zeta.
      pose proof (width_properties_differ s) as D.
      apply map_eq. intros k.
      destruct (String.eqb _ "");
        repeat (rewrite lookup_insert || rewrite lookup_delete);
        repeat case_decide; try reflexivity; congruence. }
    rewrite E. split; [reflexivity|]. split; [reflexivity|].
    unfold overlayWidth. rewrite E. reflexivity.
  - assert (_setOverlayWidth s = Ok (tt, s)) as R
      by (unfold _setOverlayWidth, bind, read; now rewrite H).
    exists s, s. unfold exec. rewrite R. auto.
Qed.

(** X16. The overlay's default width is synced to the client width of the
    position target when a position target is assigned, opened or not, and
    on a resize notification while the dropdown is opened and has a
    position target. A resize notification while it is closed or has no
    target, and the assignment of no target, leave the custom properties of
    the overlay as they were and do not ask the overlay to update its
    position. *)
Theorem width_sync_triggers s :
  (forall target,
     exists s', exec (set_positionTarget (Some target)) s = Ok s'
                /\ positionTarget s' = Some target
                /\ overlayStyle s' !! defaultWidthProperty s'
                   = Some (pretty (clientWidth target) +:+ "px"))
  /\ exec (set_positionTarget None) s = Ok (upd_positionTarget None s)
  /\ (forall target, positionTarget s = Some target -> opened s = true ->
        exists s', exec notifyResize s = Ok s'
                   /\ overlayStyle s' !! defaultWidthProperty s'
                      = Some (pretty (clientWidth target) +:+ "px")
                   /\ overlayPositionUpdates s' = S (overlayPositionUpdates s))
  /\ (positionTarget s = None \/ opened s = false ->
        exists s', exec notifyResize s = Ok s'
                   /\ overlayStyle s' = overlayStyle s
                   /\ overlayPositionUpdates s' = overlayPositionUpdates s).
Proof.
  assert (forall s0 target, positionTarget s0 = Some target ->
            exists s', _setOverlayWidth s0 = Ok (tt, s')
                       /\ positionTarget s' = Some target
                       /\ overlayStyle s' !! defaultWidthProperty s'
                          = Some (pretty (clientWidth target) +:+ "px")
                       /\ overlayPositionUpdates s' = S (overlayPositionUpdates s0)) as K.
  { intros s0 target H0. eexists. split; [exact (_setOverlayWidth_run s0 target H0)|].
    split; [exact H0|]. psimpl. cbv zeta. split; [|reflexivity].
    match goal with |- _ !! ?k = _ => change k with (defaultWidthProperty s0) end.
    destruct (String.eqb _ "").
    - rewrite lookup_delete_ne by apply width_properties_differ. apply lookup_insert_eq.
    - rewrite lookup_insert_ne by apply width_properties_differ. apply lookup_insert_eq. }
  split; [|split; [|split]].
  - intros target.
    destruct (K (upd_positionTarget (Some target) s) target eq_refl) as (s' & E & P & D & _).
    exists s'. split; [|auto].
    unfold exec, set_positionTarget, bind, modify, _positionTargetChanged. now rewrite E.
  - reflexivity.
  - intros target Ht Ho.
    destruct (K (upd_dispatched (dispatched s ++ [ironResizeEvent]) s) target Ht)
      as (s' & E & _ & D & N).
    exists s'. split; [|split; [exact D | exact N]].
    assert (bool_decide (is_Some (positionTarget s)) && opened s = true) as G
      by (rewrite Ht, Ho; reflexivity).
    unfold exec, notifyResize, super_notifyResize, dispatchEvent, bind, read, modify, id.
    psimpl. now rewrite G, E.
  - intros H.
    assert (bool_decide (is_Some (positionTarget s)) && opened s = false) as G
      by (destruct H as [-> | ->]; [reflexivity | apply andb_false_r]).
    unfold exec, notifyResize, super_notifyResize, dispatchEvent, bind, read, modify, id.
    psimpl. rewrite G. eexists. split; [reflexivity|]. split; reflexivity.
Qed.

Lemma width_sync_triggers_witness :
  (exists s', exec notifyResize (upd_opened true demo_styled) = Ok s'
              /\ overlayStyle s' !! defaultWidthProperty s'
                 = Some (pretty (clientWidth {| clientWidth := 200 |}) +:+ "px")
              /\ overlayPositionUpdates s'
                 = S (overlayPositionUpdates (upd_opened true demo_styled)))
  /\ (exists s', exec notifyResize demo_styled = Ok s'
                 /\ overlayStyle s' = overlayStyle demo_styled
                 /\ overlayPositionUpdates s' = overlayPositionUpdates demo_styled).
Proof.
  split.
  - apply (width_sync_triggers (upd_opened true demo_styled)); reflexivity.
  - apply (width_sync_triggers demo_styled). right. reflexivity.
Defined.

(** ** The test helpers *)

Import Helpers.

Lemma toLowerCase_ascii_append a b :
  toLowerCase_ascii (a +:+ b) = toLowerCase_ascii a +:+ toLowerCase_ascii b.
Proof. induction a as [|c a IH]; [reflexivity | simpl; now rewrite IH]. Qed.

Lemma lower_ascii_digit x : lower_ascii (pretty_N_char x) = pretty_N_char x.
Proof. unfold pretty_N_char. repeat case_match; reflexivity. Qed.

Lemma toLowerCase_ascii_pretty_N_go x : forall s,
  toLowerCase_ascii s = s -> toLowerCase_ascii (pretty_N_go x s) = pretty_N_go x s.
Proof.
  induction (N.lt_wf_0 x) as [x _ IH]. intros s Hs.
  destruct (decide (x = 0%N)) as [->|Hx]; [exact Hs|].
  rewrite pretty_N_go_step by lia. apply IH.
  - apply N.div_lt; lia.
  - simpl. now rewrite lower_ascii_digit, Hs.
Qed.

(** The decimal numeral of a natural number has no upper-case letter. *)
Lemma toLowerCase_ascii_pretty_nat (i : nat) :
  toLowerCase_ascii (pretty (Z.of_nat i)) = pretty (Z.of_nat i).
Proof.
  destruct (Z.of_nat i) as [|p|p] eqn:E; [reflexivity| |lia].
  unfold pretty, pretty_Z, pretty, pretty_positive, pretty, pretty_N.
  destruct (decide (N.pos p = 0%N)); [discriminate|].
  now apply toLowerCase_ascii_pretty_N_go.
Qed.

(** The lower-case form of a made label, whatever the case of its word. *)
Lemma toLowerCase_ascii_label (prefix : string) (i : nat) :
  toLowerCase_ascii prefix = "item " ->
  toLowerCase_ascii (prefix +:+ pretty (Z.of_nat i)) = "item " +:+ pretty (Z.of_nat i).
Proof.
  intros Hp. now rewrite toLowerCase_ascii_append, toLowerCase_ascii_pretty_nat, Hp.
Qed.

Lemma makeItems_lookup n i :
  (i < n)%nat -> makeItems n !! i = Some (Str ("item " +:+ pretty (Z.of_nat i))).
Proof.
  intros H. unfold makeItems. rewrite list_lookup_fmap, lookup_seq_lt by exact H.
  reflexivity.
Qed.

Lemma makeItems_lookup_inv n j v :
  makeItems n !! j = Some v -> (j < n)%nat /\ v = Str ("item " +:+ pretty (Z.of_nat j)).
Proof.
  intros H. assert (j < n)%nat as Hj.
  { apply lookup_lt_Some in H. unfold makeItems in H.
    now rewrite length_map, length_seq in H. }
  split; [exact Hj|]. rewrite (makeItems_lookup n j Hj) in H. now injection H.
Qed.

Section MakeItemsLabels.

Variable get : string -> Val -> Val.
Variable toLowerCase : string -> string.
Variable this : State.

(** A string has no property at the label path of the dropdown. *)
Hypothesis get_string : forall str, nullish (get (_itemLabelPath this) (Str str)) = true.

(** The made labels are in lower case, and their upper-case forms fold to
    them. *)
Hypothesis lower_item : forall j : nat,
  toLowerCase ("item " +:+ pretty (Z.of_nat j)) = "item " +:+ pretty (Z.of_nat j).
Hypothesis lower_ITEM : forall j : nat,
  toLowerCase ("ITEM " +:+ pretty (Z.of_nat j)) = "item " +:+ pretty (Z.of_nat j).

Lemma labelString_string str : labelString get this (Str str) = Ok str.
Proof.
  unfold labelString. destruct (truthy (Str str)) eqn:T.
  - rewrite (getItemLabel_truthy get this (Str str) None T).
    cbn [labelPath]. rewrite get_string, orb_true_r.
    reflexivity.
  - rewrite (getItemLabel_falsy get this (Str str) None T).
    cbn in T. apply negb_false_iff, String.eqb_eq in T. now subst.
Qed.

Lemma item_label_agrees i j (label : string) :
  toLowerCase label = "item " +:+ pretty (Z.of_nat i) ->
  toLowerCase ("item " +:+ pretty (Z.of_nat j)) = toLowerCase label <-> j = i.
Proof.
  intros Hp. rewrite lower_item, Hp. split.
  - intros E. injection E as E.
    change (pretty (Z.of_nat j) = pretty (Z.of_nat i)) in E. apply (inj pretty) in E. lia.
  - now intros ->.
Qed.

Lemma makeItems_from_found n i (label : string) :
  toLowerCase label = "item " +:+ pretty (Z.of_nat i) -> (i < n)%nat ->
  indexOfLabel_from get toLowerCase this (Str label) (makeItems n) 0 = Ok (Z.of_nat i).
Proof.
  intros Hp Hi.
  rewrite (indexOfLabel_from_found get toLowerCase this (Str label) label eq_refl
             (makeItems n) 0 i (Str ("item " +:+ pretty (Z.of_nat i)))).
  - f_equal.
  - now apply makeItems_lookup.
  - eexists. split; [apply labelString_string|].
    now apply (item_label_agrees i i label Hp).
  - intros j item' Hj Hl. apply makeItems_lookup_inv in Hl as [_ ->].
    eexists. split; [apply labelString_string|].
    rewrite item_label_agrees by exact Hp. lia.
Qed.

End MakeItemsLabels.

Lemma split_path_cons path : exists part parts, split_path path = part :: parts.
Proof.
  destruct path as [|c rest]; cbn [split_path]; [eauto|].
  destruct (Ascii.eqb c "."); [eauto|]. destruct (split_path rest); eauto.
Qed.

(** [path_get] finds nothing in a string. *)
Lemma path_get_string path str : nullish (path_get path (Str str)) = true.
Proof.
  unfold path_get. destruct (split_path_cons path) as (part & parts & ->).
  cbn [walk]. destruct (truthy (Str str)); [|reflexivity].
  cbn [member]. destruct parts; reflexivity.
Qed.

(** X17. [makeItems(n)] has [n] items. On a dropdown that holds them and
    whose label path names no property of a string, with a [toLowerCase]
    that leaves the labels ["item j"] as they are and folds ["ITEM j"] to
    ["item j"], [indexOfLabel] gives back the index a label was made from:
    the label ["item i"], in lower or upper case, is found at index [i] for
    every [i] below [n], and the label ["item n"] is not found. *)
Theorem makeItems_indexOfLabel (get : string -> Val -> Val)
    (toLowerCase : string -> string) this n i :
  (forall str, nullish (get (_itemLabelPath this) (Str str)) = true) ->
  (forall j : nat,
     toLowerCase ("item " +:+ pretty (Z.of_nat j)) = "item " +:+ pretty (Z.of_nat j)) ->
  (forall j : nat,
     toLowerCase ("ITEM " +:+ pretty (Z.of_nat j)) = "item " +:+ pretty (Z.of_nat j)) ->
  _items this = Some (makeItems n) -> (i < n)%nat ->
  length (makeItems n) = n
  /\ indexOfLabel get toLowerCase this (Str ("item " +:+ pretty (Z.of_nat i)))
     = Ok (Z.of_nat i)
  /\ indexOfLabel get toLowerCase this (Str ("ITEM " +:+ pretty (Z.of_nat i)))
     = Ok (Z.of_nat i)
  /\ indexOfLabel get toLowerCase this (Str ("item " +:+ pretty (Z.of_nat n))) = Ok (-1).
Proof.
  intros Hget Hlow Hup Hit Hi. split; [|split; [|split]].
  - unfold makeItems. now rewrite length_map, length_seq.
  - unfold indexOfLabel. rewrite Hit. cbn [truthy String.eqb append negb].
    apply (makeItems_from_found get toLowerCase this Hget Hlow n i); [apply Hlow | exact Hi].
  - unfold indexOfLabel. rewrite Hit. cbn [truthy String.eqb append negb].
    apply (makeItems_from_found get toLowerCase this Hget Hlow n i); [apply Hup | exact Hi].
  - unfold indexOfLabel. rewrite Hit. cbn [truthy String.eqb append negb].
    apply (indexOfLabel_from_none get toLowerCase this
             (Str ("item " +:+ pretty (Z.of_nat n)))
             ("item " +:+ pretty (Z.of_nat n)) eq_refl).
    intros j item' Hl. apply makeItems_lookup_inv in Hl as [Hj ->].
    eexists. split; [now apply labelString_string|].
    rewrite (item_label_agrees toLowerCase Hlow n j _ (Hlow n)). lia.
Qed.

Lemma makeItems_indexOfLabel_witness :
  indexOfLabel path_get toLowerCase_ascii demo_made (Str ("ITEM " +:+ pretty (Z.of_nat 95)))
  = Ok (Z.of_nat 95).
Proof.
  assert (forall str, nullish (path_get (_itemLabelPath demo_made) (Str str)) = true)
    as Hget by (intros str; apply path_get_string).
  assert (forall j : nat,
            toLowerCase_ascii ("item " +:+ pretty (Z.of_nat j))
            = "item " +:+ pretty (Z.of_nat j)) as Hlow
    by (intros j; now apply toLowerCase_ascii_label).
  assert (forall j : nat,
            toLowerCase_ascii ("ITEM " +:+ pretty (Z.of_nat j))
            = "item " +:+ pretty (Z.of_nat j)) as Hup
    by (intros j; now apply toLowerCase_ascii_label).
  assert (95 < 100)%nat as Hlt by lia.
  destruct (makeItems_indexOfLabel path_get toLowerCase_ascii demo_made 100 95
              Hget Hlow Hup eq_refl Hlt) as (_ & _ & H & _).
  exact H.
Defined.

#[local] Instance byIndex_total : Total byIndex.
Proof. intros a b. unfold byIndex. lia. Qed.

#[local] Instance byIndex_trans : Transitive byIndex.
Proof. intros a b c. unfold byIndex. lia. Qed.

(** X18. [getAllItems] returns the rendered items that are not hidden, each
    as often as it was rendered, in ascending order of [index]: no item of
    the result has a greater index than an item after it. *)
Theorem getAllItems_visible_sorted rendered :
  getAllItems rendered ≡ₚ filter (fun e => hidden e = false) rendered
  /\ (forall e, e ∈ getAllItems rendered <-> e ∈ rendered /\ hidden e = false)
  /\ StronglySorted byIndex (getAllItems rendered).
Proof.
  unfold getAllItems. split; [apply merge_sort_Permutation|]. split.
  - intros e. rewrite merge_sort_Permutation, list_elem_of_filter. tauto.
  - apply StronglySorted_merge_sort; apply _.
Qed.

(** ** The package clean-up script *)

Section UpdatePackageFacts.

Import UpdatePackage.

Lemma pinIn_lookup version dep m k :
  pinIn version dep m !! k
  = if decide (k = dep)
    then match m !! k with
         | Some v => if String.eqb v "" then Some v else Some version
         | None => None
         end
    else m !! k.
Proof.
  unfold pinIn. destruct (decide (k = dep)) as [->|N].
  - destruct (m !! dep) as [v|] eqn:E; [|exact E].
    destruct (String.eqb v ""); [exact E | apply lookup_insert_eq].
  - destruct (m !! dep) as [v|]; [|reflexivity].
    destruct (String.eqb v ""); [reflexivity | now apply lookup_insert_ne].
Qed.

(** Dropping a list of tools. *)
Lemma forEach_dropTool l : forall p dev,
  devDependencies p = Some dev ->
  exists dev',
    forEach l dropTool p = Ok (with_devDependencies dev' p)
    /\ forall k, dev' !! k = if bool_decide (k ∈ l) then None else dev !! k.
Proof.
  induction l as [|x l IH]; intros p dev H.
  - exists dev. split; [|intros k; reflexivity].
    cbn. f_equal. destruct p; cbn in *. now subst.
  - cbn [forEach]. unfold dropTool at 1. rewrite H.
    destruct (IH (with_devDependencies (delete x dev) p) (delete x dev) eq_refl)
      as (dev' & E & L).
    exists dev'. split; [exact E|]. intros k. rewrite L.
    destruct (decide (k = x)) as [->|N].
    + rewrite lookup_delete_eq. rewrite (bool_decide_eq_true_2 (x ∈ x :: l)) by left.
      now destruct (bool_decide (x ∈ l)).
    + rewrite lookup_delete_ne by congruence.
      destruct (bool_decide (k ∈ l)) eqn:B.
      * apply bool_decide_eq_true_1 in B.
        now rewrite (bool_decide_eq_true_2 (k ∈ x :: l)) by (now right).
      * apply bool_decide_eq_false_1 in B.
        rewrite (bool_decide_eq_false_2 (k ∈ x :: l)); [reflexivity|].
        rewrite elem_of_cons. tauto.
Qed.

Lemma pinnedIn_cons version x l k entry :
  version <> "" ->
  pinnedIn version l k
    (if decide (k = x)
     then match entry with
          | Some v => if String.eqb v "" then Some v else Some version
          | None => None
          end
     else entry)
  = pinnedIn version (x :: l) k entry.
Proof.
  intros Hv. unfold pinnedIn. destruct (decide (k = x)) as [->|N].
  - rewrite (bool_decide_eq_true_2 (x ∈ x :: l)) by left.
    destruct (bool_decide (x ∈ l)); [|reflexivity].
    destruct entry as [v|]; [|reflexivity].
    destruct (String.eqb v "") eqn:E; [now rewrite E|].
    destruct (String.eqb_spec version ""); [contradiction | reflexivity].
  - destruct (bool_decide (k ∈ l)) eqn:B.
    + apply bool_decide_eq_true_1 in B.
      now rewrite (bool_decide_eq_true_2 (k ∈ x :: l)) by (now right).
    + apply bool_decide_eq_false_1 in B.
      rewrite (bool_decide_eq_false_2 (k ∈ x :: l)); [reflexivity|].
      rewrite elem_of_cons. tauto.
Qed.

Lemma forEach_pin version l : version <> "" -> forall p deps dev,
  dependencies p = Some deps -> devDependencies p = Some dev ->
  exists deps' dev',
    forEach l (pin version) p = Ok (with_devDependencies dev' (with_dependencies deps' p))
    /\ (forall k, deps' !! k = pinnedIn version l k (deps !! k))
    /\ (forall k, dev' !! k = pinnedIn version l k (dev !! k)).
Proof.
  intros Hv. induction l as [|x l IH]; intros p deps dev Hd Hv'.
  - exists deps, dev. split; [|split; intros k; reflexivity].
    cbn. f_equal. destruct p; cbn in *. now subst.
  - cbn [forEach]. unfold pin at 1. rewrite Hd. cbn. rewrite Hv'.
    destruct (IH (with_devDependencies (pinIn version x dev)
                    (with_dependencies (pinIn version x deps) p))
                (pinIn version x deps) (pinIn version x dev) eq_refl eq_refl)
      as (deps' & dev' & E & Ld & Lv).
    exists deps', dev'. split; [exact E|].
    split; intros k; [rewrite Ld | rewrite Lv];
      rewrite pinIn_lookup; now apply pinnedIn_cons.
Qed.

End UpdatePackageFacts.

Section UpdatePackageResult.

Import UpdatePackage.

Lemma pinned3_not_pinned2 k : k ∈ pinned3 -> bool_decide (k ∈ pinned2) = false.
Proof.
  unfold pinned3. rewrite !elem_of_cons, elem_of_nil.
  intros [->|[->|[->|[->|[]]]]]; vm_compute; reflexivity.
Qed.

Lemma pinned_twice k entry :
  pinnedIn "^2.0.0-alpha1" pinned2 k (pinnedIn "^3.0.0-alpha1" pinned3 k entry)
  = pinnedEntry k entry.
Proof.
  unfold pinnedIn, pinnedEntry, pinnedVersion.
  destruct (bool_decide (k ∈ pinned3)) eqn:B3.
  - pose proof B3 as B3'. apply bool_decide_eq_true_1 in B3'.
    rewrite (pinned3_not_pinned2 k B3'). now destruct entry.
  - destruct (bool_decide (k ∈ pinned2)); now destruct entry.
Qed.

Lemma pinnedEntry_twice k entry : pinnedEntry k (pinnedEntry k entry) = pinnedEntry k entry.
Proof.
  unfold pinnedEntry, pinnedVersion.
  destruct (bool_decide (k ∈ pinned3)); [|destruct (bool_decide (k ∈ pinned2))];
    destruct entry as [v|]; try reflexivity;
    destruct (String.eqb v "") eqn:E; rewrite ?E; reflexivity.
Qed.

(** What the script writes, entry by entry. *)
Lemma updatePackage_run p deps dev :
  dependencies p = Some deps -> devDependencies p = Some dev ->
  exists deps' dev',
    updatePackage p
    = Ok {| scripts := None; husky := None; lint_staged := None;
            dependencies := Some deps'; devDependencies := Some dev';
            others := others p |}
    /\ (forall k, deps' !! k = pinnedEntry k (deps !! k))
    /\ (forall k, dev' !! k
                  = if bool_decide (k ∈ tools) then None else pinnedEntry k (dev !! k)).
Proof.
  intros Hd Hv. unfold updatePackage.
  set (p0 := {| scripts := None; husky := None; lint_staged := None;
                dependencies := dependencies p; devDependencies := devDependencies p;
                others := others p |}).
  destruct (forEach_dropTool tools p0 dev Hv) as (dev1 & E1 & L1). rewrite E1.
  destruct (forEach_pin "^3.0.0-alpha1" pinned3 ltac:(discriminate)
              (with_devDependencies dev1 p0) deps dev1 Hd eq_refl)
    as (deps2 & dev2 & E2 & Ld2 & Lv2). rewrite E2.
  destruct (forEach_pin "^2.0.0-alpha1" pinned2 ltac:(discriminate)
              (with_devDependencies dev2
                 (with_dependencies deps2 (with_devDependencies dev1 p0)))
              deps2 dev2 eq_refl eq_refl)
    as (deps3 & dev3 & E3 & Ld3 & Lv3). rewrite E3.
  exists deps3, dev3. split; [reflexivity|]. split; intros k.
  - now rewrite Ld3, Ld2, pinned_twice.
  - rewrite Lv3, Lv2, pinned_twice, L1.
    destruct (bool_decide (k ∈ tools)); [|reflexivity].
    unfold pinnedEntry. reflexivity.
Qed.

End UpdatePackageResult.

(** Without one of the two dependency maps the script throws. *)
Lemma updatePackage_throws (p : UpdatePackage.PackageJson) :
  UpdatePackage.dependencies p = None \/ UpdatePackage.devDependencies p = None ->
  is_ok (UpdatePackage.updatePackage p) = false.
Proof.
  intros H. destruct (UpdatePackage.devDependencies p) as [dev|] eqn:Hv.
  - destruct H as [Hd|C]; [|discriminate C].
    destruct (forEach_dropTool UpdatePackage.tools
                {| UpdatePackage.scripts := None; UpdatePackage.husky := None;
                   UpdatePackage.lint_staged := None;
                   UpdatePackage.dependencies := UpdatePackage.dependencies p;
                   UpdatePackage.devDependencies := UpdatePackage.devDependencies p;
                   UpdatePackage.others := UpdatePackage.others p |} dev Hv)
      as (dev1 & E1 & _).
    unfold UpdatePackage.updatePackage. rewrite E1. cbn. rewrite Hd. reflexivity.
  - unfold UpdatePackage.updatePackage. cbn. rewrite Hv. reflexivity.
Qed.

(** X19. The script edits a [package.json] that has both [dependencies]
    and [devDependencies], and throws, writing nothing, when one of them
    is missing. *)
Theorem updatePackage_needs_both_maps (p : UpdatePackage.PackageJson) :
  is_ok (UpdatePackage.updatePackage p) = true
  <-> UpdatePackage.dependencies p <> None /\ UpdatePackage.devDependencies p <> None.
Proof.
  split.
  - intros H. split; intros C.
    + rewrite updatePackage_throws in H by (now left). discriminate H.
    + rewrite updatePackage_throws in H by (now right). discriminate H.
  - intros [Hd Hv].
    destruct (UpdatePackage.dependencies p) as [deps|] eqn:Ed; [|contradiction].
    destruct (UpdatePackage.devDependencies p) as [dev|] eqn:Ev; [|contradiction].
    destruct (updatePackage_run p deps dev Ed Ev) as (deps' & dev' & E & _).
    now rewrite E.
Qed.

(** X20. From a [package.json] with both dependency maps the script writes
    one without [scripts], [husky] and [lint-staged], with its other members
    as they were, and with these dependency maps: no tool of the list is
    left in [devDependencies]; a pinned package that was present with a
    non-empty version has the pinned version, in both maps; every other
    entry is as it was. *)
Theorem updatePackage_result (p : UpdatePackage.PackageJson) deps dev :
  UpdatePackage.dependencies p = Some deps -> UpdatePackage.devDependencies p = Some dev ->
  exists deps' dev',
    UpdatePackage.updatePackage p
    = Ok {| UpdatePackage.scripts := None; UpdatePackage.husky := None;
            UpdatePackage.lint_staged := None;
            UpdatePackage.dependencies := Some deps';
            UpdatePackage.devDependencies := Some dev';
            UpdatePackage.others := UpdatePackage.others p |}
    /\ (forall k, k ∈ UpdatePackage.tools -> dev' !! k = None)
    /\ (forall k version v,
          UpdatePackage.pinnedVersion k = Some version -> v <> "" ->
          (deps !! k = Some v -> deps' !! k = Some version)
          /\ (dev !! k = Some v -> dev' !! k = Some version))
    /\ (forall k, UpdatePackage.pinnedVersion k = None ->
          deps' !! k = deps !! k
          /\ (k ∉ UpdatePackage.tools -> dev' !! k = dev !! k)).
Proof.
  intros Hd Hv. destruct (updatePackage_run p deps dev Hd Hv) as (deps' & dev' & E & Ld & Lv).
  exists deps', dev'. split; [exact E|]. split; [|split].
  - intros k Hk. rewrite Lv. now rewrite bool_decide_eq_true_2.
  - intros k version v Hp Hne.
    assert (forall m : gmap string string, m !! k = Some v ->
                      UpdatePackage.pinnedEntry k (m !! k) = Some version) as K.
    { intros m ->. unfold UpdatePackage.pinnedEntry. rewrite Hp.
      destruct (String.eqb_spec v ""); [contradiction | reflexivity]. }
    assert (bool_decide (k ∈ UpdatePackage.tools) = false) as T.
    { unfold UpdatePackage.pinnedVersion in Hp.
      destruct (bool_decide (k ∈ UpdatePackage.pinned3)) eqn:B3.
      - apply bool_decide_eq_true_1 in B3. unfold UpdatePackage.pinned3 in B3.
        rewrite !elem_of_cons, elem_of_nil in B3.
        destruct B3 as [->|[->|[->|[->|[]]]]]; vm_compute; reflexivity.
      - destruct (bool_decide (k ∈ UpdatePackage.pinned2)) eqn:B2; [|discriminate].
        apply bool_decide_eq_true_1 in B2. unfold UpdatePackage.pinned2 in B2.
        rewrite !elem_of_cons, elem_of_nil in B2.
        destruct B2 as [->|[->|[->|[]]]]; vm_compute; reflexivity. }
    split; intros H.
    + rewrite Ld. now apply K.
    + rewrite Lv, T. now apply K.
  - intros k Hp.
    assert (forall e, UpdatePackage.pinnedEntry k e = e) as K.
    { intros e. unfold UpdatePackage.pinnedEntry. rewrite Hp. now destruct e. }
    split.
    + now rewrite Ld, K.
    + intros Hk. rewrite Lv, K. now rewrite bool_decide_eq_false_2.
Qed.

Lemma updatePackage_result_witness :
  exists deps' dev',
    UpdatePackage.updatePackage UpdatePackage.demo_package
    = Ok {| UpdatePackage.scripts := None; UpdatePackage.husky := None;
            UpdatePackage.lint_staged := None;
            UpdatePackage.dependencies := Some deps';
            UpdatePackage.devDependencies := Some dev';
            UpdatePackage.others := UpdatePackage.others UpdatePackage.demo_package |}
    /\ dev' !! "eslint" = None.
Proof.
  destruct (updatePackage_result UpdatePackage.demo_package
              {[ "@polymer/polymer" := "^3.0.0"; "@vaadin/vaadin-button" := "^2.4.0" ]}
              {[ "eslint" := "^7.0.0"; "sinon" := "^9.2.0";
                 "@vaadin/vaadin-dialog" := "^2.5.0" ]} eq_refl eq_refl)
    as (deps' & dev' & E & Htools & _).
  exists deps', dev'. split; [exact E|]. apply Htools. vm_compute. 
  repeat (first [left; reflexivity | right]).
Defined.

(** X21. The script adds no dependency: [dependencies] keeps exactly the
    packages it had, and [devDependencies] exactly those that are not in
    the list of tools. *)
Theorem updatePackage_adds_nothing (p p' : UpdatePackage.PackageJson) deps dev :
  UpdatePackage.dependencies p = Some deps -> UpdatePackage.devDependencies p = Some dev ->
  UpdatePackage.updatePackage p = Ok p' ->
  exists deps' dev',
    UpdatePackage.dependencies p' = Some deps'
    /\ UpdatePackage.devDependencies p' = Some dev'
    /\ (forall k, is_Some (deps' !! k) <-> is_Some (deps !! k))
    /\ (forall k, is_Some (dev' !! k) <-> is_Some (dev !! k) /\ k ∉ UpdatePackage.tools).
Proof.
  intros Hd Hv H.
  destruct (updatePackage_run p deps dev Hd Hv) as (deps' & dev' & E & Ld & Lv).
  rewrite E in H. injection H as <-. exists deps', dev'.
  split; [reflexivity|]. split; [reflexivity|].
  assert (forall k e, is_Some (UpdatePackage.pinnedEntry k e) <-> is_Some e) as K.
  { intros k e. unfold UpdatePackage.pinnedEntry.
    destruct e as [v|]; [|reflexivity].
    destruct (UpdatePackage.pinnedVersion k); [|reflexivity].
    destruct (String.eqb v ""); split; eauto. }
  split; intros k.
  - now rewrite Ld, K.
  - rewrite Lv. destruct (bool_decide (k ∈ UpdatePackage.tools)) eqn:B.
    + apply bool_decide_eq_true_1 in B. split.
      * intros [x C]. discriminate C.
      * intros [_ C]. contradiction.
    + apply bool_decide_eq_false_1 in B. rewrite K. tauto.
Qed.

Lemma updatePackage_adds_nothing_witness :
  exists p' deps' dev',
    UpdatePackage.updatePackage UpdatePackage.demo_package = Ok p'
    /\ UpdatePackage.dependencies p' = Some deps'
    /\ UpdatePackage.devDependencies p' = Some dev'
    /\ (forall k, is_Some (deps' !! k)
                  <-> is_Some (({[ "@polymer/polymer" := "^3.0.0";
                                   "@vaadin/vaadin-button" := "^2.4.0" ]}
                                : gmap string string) !! k)).
Proof.
  destruct (UpdatePackage.updatePackage UpdatePackage.demo_package) as [p'|] eqn:E;
    [|vm_compute in E; discriminate E].
  destruct (updatePackage_adds_nothing UpdatePackage.demo_package p'
              {[ "@polymer/polymer" := "^3.0.0"; "@vaadin/vaadin-button" := "^2.4.0" ]}
              {[ "eslint" := "^7.0.0"; "sinon" := "^9.2.0";
                 "@vaadin/vaadin-dialog" := "^2.5.0" ]} eq_refl eq_refl E)
    as (deps' & dev' & H1 & H2 & H3 & _).
  exists p', deps', dev'. auto.
Defined.

(** X22. Running the script on what it wrote changes nothing. *)
Theorem updatePackage_idempotent (p p' : UpdatePackage.PackageJson) :
  UpdatePackage.updatePackage p = Ok p' -> UpdatePackage.updatePackage p' = Ok p'.
Proof.
  intros H.
  destruct (UpdatePackage.dependencies p) as [deps|] eqn:Hd.
  2: { pose proof (updatePackage_throws p (or_introl Hd)) as C.
       rewrite H in C. discriminate C. }
  destruct (UpdatePackage.devDependencies p) as [dev|] eqn:Hv.
  2: { pose proof (updatePackage_throws p (or_intror Hv)) as C.
       rewrite H in C. discriminate C. }
  destruct (updatePackage_run p deps dev Hd Hv) as (deps' & dev' & E & Ld & Lv).
  rewrite E in H. injection H as <-.
  destruct (updatePackage_run
              {| UpdatePackage.scripts := None; UpdatePackage.husky := None;
                 UpdatePackage.lint_staged := None;
                 UpdatePackage.dependencies := Some deps';
                 UpdatePackage.devDependencies := Some dev';
                 UpdatePackage.others := UpdatePackage.others p |}
              deps' dev' eq_refl eq_refl) as (deps2 & dev2 & E2 & Ld2 & Lv2).
  rewrite E2. cbn.
  assert (deps2 = deps') as ->.
  { apply map_eq. intros k. now rewrite Ld2, Ld, pinnedEntry_twice. }
  assert (dev2 = dev') as ->.
  { apply map_eq. intros k. rewrite Lv2, Lv.
    destruct (bool_decide (k ∈ UpdatePackage.tools)); [reflexivity|].
    apply pinnedEntry_twice. }
  reflexivity.
Qed.

Lemma updatePackage_idempotent_witness :
  exists p', UpdatePackage.updatePackage UpdatePackage.demo_package = Ok p'
             /\ UpdatePackage.updatePackage p' = Ok p'.
Proof.
  destruct (UpdatePackage.updatePackage UpdatePackage.demo_package) as [p'|] eqn:E;
    [|vm_compute in E; discriminate E].
  exists p'. split; [reflexivity|].
  apply (updatePackage_idempotent UpdatePackage.demo_package p'). exact E.
Defined.

(** ** The text area *)



(** X24. With its [textarea] and [input-field] part, [_updateHeight]
    reports to the resize check, once, the scroll height the [textarea] has
    when it is measured. The inline height of the [textarea] afterwards is
    that scroll height in pixels when it exceeds the client height measured
    at the same moment; otherwise it is [auto] when the value did not get
    longer, and is left as it was when the value got longer or was not
    measured before. *)
Theorem updateHeight_height (layout : TextArea.Layout) (this : TextArea.State)
    input inputField :
  TextArea.inputElement this = Some input ->
  TextArea._inputField this = Some inputField ->
  let this' := TextArea._updateHeight layout this in
  let h := TextArea.scrollHeight layout (TextArea.measured layout this) in
  TextArea.resizeChecks this' = TextArea.resizeChecks this ++ [("InputHeight", h)]
  /\ TextArea.styleOf (TextArea.inputElement this') !! "height"
     = if TextArea.clientHeight layout (TextArea.measured layout this) <? h
       then Some (pretty h +:+ "px")
       else if TextArea.notLonger this then Some "auto"
            else TextArea.style input !! "height".
Proof.
  intros Hi Hf this' h. unfold this', h, TextArea._updateHeight, TextArea.measured.
  rewrite Hi, Hf. cbv zeta.
  destruct (TextArea.notLonger this);
    match goal with |- context [if ?c then _ else _] => destruct c end;
    cbn; rewrite ?Hi, ?Hf; cbn; (split; [reflexivity|]); now simplify_map_eq.
Qed.

Lemma updateHeight_height_witness :
  TextArea.resizeChecks (TextArea._updateHeight TextArea.demo_layout TextArea.demo_area)
  = TextArea.resizeChecks TextArea.demo_area ++ [("InputHeight", 60)]
  /\ TextArea.styleOf
       (TextArea.inputElement
          (TextArea._updateHeight TextArea.demo_layout TextArea.demo_area))
     !! "height" = Some "60px".
Proof.
  destruct (updateHeight_height TextArea.demo_layout TextArea.demo_area
              {| TextArea.style := ∅; TextArea.scrollTop := 0 |}
              {| TextArea.style := {[ "display" := "flex" ]}; TextArea.scrollTop := 7 |}
              eq_refl eq_refl) as (E & H).
  split; [exact E | exact H].
Defined.
